(** * Flipper desktop: the [connections] reducer and its selectors

    A shallow embedding of [desktop/app/src/reducers/connections.tsx] (the
    redux reducer tracking devices, clients and the current selection) and
    of the selectors [getActiveClient], [getMetroDevice] and
    [getActiveDevice], followed by the properties of the transition
    function that the specification states.

    Devices and clients are JavaScript objects: the store keeps references
    to them and compares them with [===].  An object is represented by its
    identity [oid] together with the members that never change during its
    life; two records are the same object exactly when they are equal.  The
    members that external code changes behind the store's back
    ([connected], [isConnected], the plugins a client supports) are read
    from a [World], the snapshot of the objects at the time of a
    transition.

    A JavaScript number that the code computes with is a binary64 float,
    and a plain object used as a dictionary answers a lookup with its own
    entry or else with the member of that name it inherits from
    [Object.prototype]. *)

From Corelib Require Import PrimFloat.
From Stdlib Require Import ZArith.
From stdpp Require Import base option strings list gmap sorting.

Local Open Scope string_scope.
Local Open Scope Z_scope.
Local Open Scope list_scope.

(** ** JavaScript values *)

(** A member that may be absent ([x?: T | null]): [undefined], [null] or a
    value. *)
Inductive optional (A : Type) : Type :=
  | undefined
  | null
  | present (a : A).
Arguments undefined {A}.
Arguments null {A}.
Arguments present {A} a.

(** [x ?? y] where the result is stored in a [null | T] member. *)
Definition nullish_or {A : Type} (x : optional A) (y : option A) : option A :=
  match x with
  | present a => Some a
  | undefined | null => y
  end.

(** A value of type [unknown], of which the reducer only ever asks whether
    it is nullish. *)
Inductive unknown : Type :=
  | js_undefined
  | js_null
  | js_value (v : string).

#[global] Instance unknown_eq_dec : EqDecision unknown.
Proof. solve_decision. Defined.

(** [x ?? null] on an [unknown]. *)
Definition nullish_or_null (x : unknown) : unknown :=
  match x with
  | js_value v => js_value v
  | js_undefined | js_null => js_null
  end.

(** Truthiness of a string and of a [null | string]: the empty string is
    falsy, like [null]. *)
Definition truthy_string (x : string) : bool := bool_decide (x ≠ "").

Definition truthy (x : option string) : bool :=
  match x with
  | Some v => truthy_string v
  | None => false
  end.

(** [Array.prototype.find], [findIndex], [indexOf] and [includes]. *)
Definition find {A : Type} (P : A → Prop) `{∀ x, Decision (P x)}
    (l : list A) : option A :=
  snd <$> list_find P l.

Definition findIndex {A : Type} (P : A → Prop) `{∀ x, Decision (P x)}
    (l : list A) : option nat :=
  fst <$> list_find P l.

Definition indexOf (x : string) (l : list string) : option nat :=
  findIndex (λ y, y = x) l.

Definition includes (x : string) (l : list string) : bool :=
  bool_decide (x ∈ l).

(** ** The entity model *)

Module BaseDevice.
Record t : Type := mk {
  oid : nat;
  serial : string;
  title : string;
  os : string;
  isArchived : bool;
}.

#[global] Instance BaseDevice_eq_dec : EqDecision t.
Proof. solve_decision. Defined.
End BaseDevice.

Module ClientQuery.
Record t : Type := mk {
  app : string;
  os : string;
  device : string;
  device_id : string;
}.

#[global] Instance ClientQuery_eq_dec : EqDecision t.
Proof. solve_decision. Defined.
End ClientQuery.

Module Client.
Record t : Type := mk {
  oid : nat;
  id : string;
  query : ClientQuery.t;
  device : BaseDevice.t;
}.

#[global] Instance Client_eq_dec : EqDecision t.
Proof. solve_decision. Defined.
End Client.

(** Modelled from the spec: the type [UninitializedClient] of
    [server/UninitializedClient], a plain record "identified by
    (deviceName, appName)", and react-redux's [shallowEqual] on two such
    records, which is "full structural equality". *)
Record UninitializedClient : Type := {
  os : string;
  deviceName : string;
  appName : string;
}.

#[global] Instance UninitializedClient_eq_dec : EqDecision UninitializedClient.
Proof. solve_decision. Defined.

Definition shallowEqual (a b : UninitializedClient) : Prop := a = b.

#[global] Instance shallowEqual_dec a b : Decision (shallowEqual a b).
Proof. unfold shallowEqual. apply _. Defined.

(** What the objects look like at the time of a transition. *)
Record World : Type := {
  (** [device.connected.get()] *)
  device_connected : BaseDevice.t → bool;
  (** [device.isConnected] *)
  device_isConnected : BaseDevice.t → bool;
  (** [client.connected.get()] *)
  client_connected : Client.t → bool;
  (** [client.supportsPlugin(id)] *)
  client_supportsPlugin : Client.t → string → bool;
}.

(** ** The state *)

(** A static view is [null] or a component; components are told apart by
    name. *)
Definition StaticView : Type := option string.

Definition WelcomeScreenStaticView : string := "WelcomeScreenStaticView".

Record State : Type := {
  devices : list BaseDevice.t;
  selectedDevice : option BaseDevice.t;
  selectedPlugin : option string;
  selectedAppId : option string;
  userPreferredDevice : option string;
  userPreferredPlugin : option string;
  userPreferredApp : option string;
  enabledPlugins : gmap string (list string);
  enabledDevicePlugins : gset string;
  clients : list Client.t;
  uninitializedClients : list UninitializedClient;
  deepLinkPayload : unknown;
  staticView : StaticView;
  selectedAppPluginListRevision : float;
  flipperServer : option nat;
}.

(** ** Actions *)

Module Payload.
(** The payload of [SELECT_PLUGIN]. *)
Record t : Type := mk {
  selectedPlugin : string;
  selectedAppId : optional string;
  deepLinkPayload : unknown;
  selectedDevice : optional BaseDevice.t;
  time : Z;
}.
End Payload.

Inductive Action : Type :=
  | REGISTER_DEVICE (payload : BaseDevice.t)
  | SELECT_DEVICE (payload : option BaseDevice.t)
  | SELECT_PLUGIN (payload : Payload.t)
  | NEW_CLIENT (payload : Client.t)
  | CLIENT_REMOVED (payload : string)
  | START_CLIENT_SETUP (payload : UninitializedClient)
  | SET_STATIC_VIEW (payload : StaticView) (deepLinkPayload : unknown)
  | SET_PLUGIN_ENABLED (pluginId selectedApp : string)
  | SET_DEVICE_PLUGIN_ENABLED (pluginId : string)
  | SET_PLUGIN_DISABLED (pluginId selectedApp : string)
  | SET_DEVICE_PLUGIN_DISABLED (pluginId : string)
  | SELECT_CLIENT (payload : string)
  | APP_PLUGIN_LIST_CHANGED
  | SET_FLIPPER_SERVER (payload : nat)
  | REGISTER_PLUGINS (payload : list string)
  | RESET_SUPPORT_FORM_V2_STATE
  (** an action of another reducer *)
  | OTHER_ACTION (type : string).

Definition DEFAULT_PLUGIN : string := "DeviceLogs".

Definition DEFAULT_DEVICE_BLACKLIST : list string :=
  ["MacOS"; "Metro"; "Windows"].

Definition INITAL_STATE : State := {|
  devices := [];
  selectedDevice := None;
  selectedAppId := None;
  selectedPlugin := Some DEFAULT_PLUGIN;
  userPreferredDevice := None;
  userPreferredPlugin := None;
  userPreferredApp := None;
  enabledPlugins := ∅;
  enabledDevicePlugins :=
    {[ "DeviceLogs"; "CrashReporter"; "MobileBuilds"; "Hermesdebuggerrn";
       "React" ]};
  clients := [];
  uninitializedClients := [];
  deepLinkPayload := js_null;
  staticView := Some WelcomeScreenStaticView;
  selectedAppPluginListRevision := 0%float;
  flipperServer := None;
|}.

Definition canBeDefaultDevice (device : BaseDevice.t) : bool :=
  negb (includes (BaseDevice.os device) DEFAULT_DEVICE_BLACKLIST).

(** ** Record update

    [state |> set_f v] is the object spread [{...state, f: v}]. *)

Notation "s |> f" := (f s) (at level 50, left associativity, only parsing).

Definition set_devices (v : list BaseDevice.t) (s : State) : State :=
  {| devices := v;
     selectedDevice := selectedDevice s;
     selectedPlugin := selectedPlugin s;
     selectedAppId := selectedAppId s;
     userPreferredDevice := userPreferredDevice s;
     userPreferredPlugin := userPreferredPlugin s;
     userPreferredApp := userPreferredApp s;
     enabledPlugins := enabledPlugins s;
     enabledDevicePlugins := enabledDevicePlugins s;
     clients := clients s;
     uninitializedClients := uninitializedClients s;
     deepLinkPayload := deepLinkPayload s;
     staticView := staticView s;
     selectedAppPluginListRevision := selectedAppPluginListRevision s;
     flipperServer := flipperServer s |}.

Definition set_selectedDevice (v : option BaseDevice.t) (s : State) : State :=
  {| devices := devices s;
     selectedDevice := v;
     selectedPlugin := selectedPlugin s;
     selectedAppId := selectedAppId s;
     userPreferredDevice := userPreferredDevice s;
     userPreferredPlugin := userPreferredPlugin s;
     userPreferredApp := userPreferredApp s;
     enabledPlugins := enabledPlugins s;
     enabledDevicePlugins := enabledDevicePlugins s;
     clients := clients s;
     uninitializedClients := uninitializedClients s;
     deepLinkPayload := deepLinkPayload s;
     staticView := staticView s;
     selectedAppPluginListRevision := selectedAppPluginListRevision s;
     flipperServer := flipperServer s |}.

Definition set_selectedPlugin (v : option string) (s : State) : State :=
  {| devices := devices s;
     selectedDevice := selectedDevice s;
     selectedPlugin := v;
     selectedAppId := selectedAppId s;
     userPreferredDevice := userPreferredDevice s;
     userPreferredPlugin := userPreferredPlugin s;
     userPreferredApp := userPreferredApp s;
     enabledPlugins := enabledPlugins s;
     enabledDevicePlugins := enabledDevicePlugins s;
     clients := clients s;
     uninitializedClients := uninitializedClients s;
     deepLinkPayload := deepLinkPayload s;
     staticView := staticView s;
     selectedAppPluginListRevision := selectedAppPluginListRevision s;
     flipperServer := flipperServer s |}.

Definition set_selectedAppId (v : option string) (s : State) : State :=
  {| devices := devices s;
     selectedDevice := selectedDevice s;
     selectedPlugin := selectedPlugin s;
     selectedAppId := v;
     userPreferredDevice := userPreferredDevice s;
     userPreferredPlugin := userPreferredPlugin s;
     userPreferredApp := userPreferredApp s;
     enabledPlugins := enabledPlugins s;
     enabledDevicePlugins := enabledDevicePlugins s;
     clients := clients s;
     uninitializedClients := uninitializedClients s;
     deepLinkPayload := deepLinkPayload s;
     staticView := staticView s;
     selectedAppPluginListRevision := selectedAppPluginListRevision s;
     flipperServer := flipperServer s |}.

Definition set_userPreferredDevice (v : option string) (s : State) : State :=
  {| devices := devices s;
     selectedDevice := selectedDevice s;
     selectedPlugin := selectedPlugin s;
     selectedAppId := selectedAppId s;
     userPreferredDevice := v;
     userPreferredPlugin := userPreferredPlugin s;
     userPreferredApp := userPreferredApp s;
     enabledPlugins := enabledPlugins s;
     enabledDevicePlugins := enabledDevicePlugins s;
     clients := clients s;
     uninitializedClients := uninitializedClients s;
     deepLinkPayload := deepLinkPayload s;
     staticView := staticView s;
     selectedAppPluginListRevision := selectedAppPluginListRevision s;
     flipperServer := flipperServer s |}.

Definition set_userPreferredPlugin (v : option string) (s : State) : State :=
  {| devices := devices s;
     selectedDevice := selectedDevice s;
     selectedPlugin := selectedPlugin s;
     selectedAppId := selectedAppId s;
     userPreferredDevice := userPreferredDevice s;
     userPreferredPlugin := v;
     userPreferredApp := userPreferredApp s;
     enabledPlugins := enabledPlugins s;
     enabledDevicePlugins := enabledDevicePlugins s;
     clients := clients s;
     uninitializedClients := uninitializedClients s;
     deepLinkPayload := deepLinkPayload s;
     staticView := staticView s;
     selectedAppPluginListRevision := selectedAppPluginListRevision s;
     flipperServer := flipperServer s |}.

Definition set_userPreferredApp (v : option string) (s : State) : State :=
  {| devices := devices s;
     selectedDevice := selectedDevice s;
     selectedPlugin := selectedPlugin s;
     selectedAppId := selectedAppId s;
     userPreferredDevice := userPreferredDevice s;
     userPreferredPlugin := userPreferredPlugin s;
     userPreferredApp := v;
     enabledPlugins := enabledPlugins s;
     enabledDevicePlugins := enabledDevicePlugins s;
     clients := clients s;
     uninitializedClients := uninitializedClients s;
     deepLinkPayload := deepLinkPayload s;
     staticView := staticView s;
     selectedAppPluginListRevision := selectedAppPluginListRevision s;
     flipperServer := flipperServer s |}.

Definition set_enabledPlugins (v : gmap string (list string)) (s : State) : State :=
  {| devices := devices s;
     selectedDevice := selectedDevice s;
     selectedPlugin := selectedPlugin s;
     selectedAppId := selectedAppId s;
     userPreferredDevice := userPreferredDevice s;
     userPreferredPlugin := userPreferredPlugin s;
     userPreferredApp := userPreferredApp s;
     enabledPlugins := v;
     enabledDevicePlugins := enabledDevicePlugins s;
     clients := clients s;
     uninitializedClients := uninitializedClients s;
     deepLinkPayload := deepLinkPayload s;
     staticView := staticView s;
     selectedAppPluginListRevision := selectedAppPluginListRevision s;
     flipperServer := flipperServer s |}.

Definition set_enabledDevicePlugins (v : gset string) (s : State) : State :=
  {| devices := devices s;
     selectedDevice := selectedDevice s;
     selectedPlugin := selectedPlugin s;
     selectedAppId := selectedAppId s;
     userPreferredDevice := userPreferredDevice s;
     userPreferredPlugin := userPreferredPlugin s;
     userPreferredApp := userPreferredApp s;
     enabledPlugins := enabledPlugins s;
     enabledDevicePlugins := v;
     clients := clients s;
     uninitializedClients := uninitializedClients s;
     deepLinkPayload := deepLinkPayload s;
     staticView := staticView s;
     selectedAppPluginListRevision := selectedAppPluginListRevision s;
     flipperServer := flipperServer s |}.

Definition set_clients (v : list Client.t) (s : State) : State :=
  {| devices := devices s;
     selectedDevice := selectedDevice s;
     selectedPlugin := selectedPlugin s;
     selectedAppId := selectedAppId s;
     userPreferredDevice := userPreferredDevice s;
     userPreferredPlugin := userPreferredPlugin s;
     userPreferredApp := userPreferredApp s;
     enabledPlugins := enabledPlugins s;
     enabledDevicePlugins := enabledDevicePlugins s;
     clients := v;
     uninitializedClients := uninitializedClients s;
     deepLinkPayload := deepLinkPayload s;
     staticView := staticView s;
     selectedAppPluginListRevision := selectedAppPluginListRevision s;
     flipperServer := flipperServer s |}.

Definition set_uninitializedClients (v : list UninitializedClient) (s : State) : State :=
  {| devices := devices s;
     selectedDevice := selectedDevice s;
     selectedPlugin := selectedPlugin s;
     selectedAppId := selectedAppId s;
     userPreferredDevice := userPreferredDevice s;
     userPreferredPlugin := userPreferredPlugin s;
     userPreferredApp := userPreferredApp s;
     enabledPlugins := enabledPlugins s;
     enabledDevicePlugins := enabledDevicePlugins s;
     clients := clients s;
     uninitializedClients := v;
     deepLinkPayload := deepLinkPayload s;
     staticView := staticView s;
     selectedAppPluginListRevision := selectedAppPluginListRevision s;
     flipperServer := flipperServer s |}.

Definition set_deepLinkPayload (v : unknown) (s : State) : State :=
  {| devices := devices s;
     selectedDevice := selectedDevice s;
     selectedPlugin := selectedPlugin s;
     selectedAppId := selectedAppId s;
     userPreferredDevice := userPreferredDevice s;
     userPreferredPlugin := userPreferredPlugin s;
     userPreferredApp := userPreferredApp s;
     enabledPlugins := enabledPlugins s;
     enabledDevicePlugins := enabledDevicePlugins s;
     clients := clients s;
     uninitializedClients := uninitializedClients s;
     deepLinkPayload := v;
     staticView := staticView s;
     selectedAppPluginListRevision := selectedAppPluginListRevision s;
     flipperServer := flipperServer s |}.

Definition set_staticView (v : StaticView) (s : State) : State :=
  {| devices := devices s;
     selectedDevice := selectedDevice s;
     selectedPlugin := selectedPlugin s;
     selectedAppId := selectedAppId s;
     userPreferredDevice := userPreferredDevice s;
     userPreferredPlugin := userPreferredPlugin s;
     userPreferredApp := userPreferredApp s;
     enabledPlugins := enabledPlugins s;
     enabledDevicePlugins := enabledDevicePlugins s;
     clients := clients s;
     uninitializedClients := uninitializedClients s;
     deepLinkPayload := deepLinkPayload s;
     staticView := v;
     selectedAppPluginListRevision := selectedAppPluginListRevision s;
     flipperServer := flipperServer s |}.

Definition set_selectedAppPluginListRevision (v : float) (s : State) : State :=
  {| devices := devices s;
     selectedDevice := selectedDevice s;
     selectedPlugin := selectedPlugin s;
     selectedAppId := selectedAppId s;
     userPreferredDevice := userPreferredDevice s;
     userPreferredPlugin := userPreferredPlugin s;
     userPreferredApp := userPreferredApp s;
     enabledPlugins := enabledPlugins s;
     enabledDevicePlugins := enabledDevicePlugins s;
     clients := clients s;
     uninitializedClients := uninitializedClients s;
     deepLinkPayload := deepLinkPayload s;
     staticView := staticView s;
     selectedAppPluginListRevision := v;
     flipperServer := flipperServer s |}.

Definition set_flipperServer (v : option nat) (s : State) : State :=
  {| devices := devices s;
     selectedDevice := selectedDevice s;
     selectedPlugin := selectedPlugin s;
     selectedAppId := selectedAppId s;
     userPreferredDevice := userPreferredDevice s;
     userPreferredPlugin := userPreferredPlugin s;
     userPreferredApp := userPreferredApp s;
     enabledPlugins := enabledPlugins s;
     enabledDevicePlugins := enabledDevicePlugins s;
     clients := clients s;
     uninitializedClients := uninitializedClients s;
     deepLinkPayload := deepLinkPayload s;
     staticView := staticView s;
     selectedAppPluginListRevision := selectedAppPluginListRevision s;
     flipperServer := v |}.

(** ** The reducer *)

(** A call of the reducer returns the next state or throws. *)
Inductive Outcome : Type :=
  | Returns (s : State)
  | Throws (message : string).

(** [REGISTER_DEVICE]: the new [devices] array, unless the device found
    under the payload's serial is still connected. *)
Definition registerDevice_newDevices (world : World) (state : State)
    (payload : BaseDevice.t) : string + list BaseDevice.t :=
  match list_find (λ device, BaseDevice.serial device = BaseDevice.serial payload)
          (devices state) with
  | Some (existing, d) =>
      if device_connected world d then
        inl ("Cannot register, '" +:+ BaseDevice.serial d
               +:+ "' is still connected")
      else inr (<[existing := payload]> (devices state))
  | None => inr (devices state ++ [payload])
  end.

Definition registerDevice_selectNewDevice (world : World) (state : State)
    (payload : BaseDevice.t) : bool :=
  match selectedDevice state with
  | None => true
  | Some selected =>
      negb (device_isConnected world selected)
      || bool_decide (userPreferredDevice state = Some (BaseDevice.title payload))
  end.

(** [REGISTER_DEVICE]: the app to select together with the new device. *)
Definition registerDevice_selectedAppId (state : State)
    (payload : BaseDevice.t) : option string :=
  let selectedAppId :=
    Client.id <$>
      find (λ c, Client.device c = payload
                 ∧ Some (ClientQuery.app (Client.query c)) = userPreferredApp state)
        (clients state) in
  if negb (truthy selectedAppId) then
    Client.id <$> find (λ c, Client.device c = payload) (clients state)
  else selectedAppId.

(** [c.id === selectedAppId] for a [selectedAppId] that may be absent. *)
Definition id_is (selectedAppId : optional string) (c : Client.t) : Prop :=
  present (Client.id c) = selectedAppId.

#[global] Instance optional_eq_dec {A : Type} `{EqDecision A} :
  EqDecision (optional A).
Proof. solve_decision. Defined.

#[global] Instance id_is_dec selectedAppId c : Decision (id_is selectedAppId c).
Proof. unfold id_is. apply _. Defined.

(** [SELECT_PLUGIN]: [action.payload.selectedDevice ?? client?.device]. *)
Definition selectPlugin_device (state : State) (payload : Payload.t)
    : option BaseDevice.t :=
  let client := find (id_is (Payload.selectedAppId payload)) (clients state) in
  nullish_or (Payload.selectedDevice payload) (Client.device <$> client).

(** [NEW_CLIENT]: whether the new client takes over the selection. *)
Definition newClient_selectNewClient (world : World) (state : State)
    (payload : Client.t) : bool :=
  negb (truthy (selectedAppId state))
  || bool_decide (userPreferredApp state
                  = Some (ClientQuery.app (Client.query payload)))
  || match find (λ c, Some (Client.id c) = selectedAppId state) (clients state) with
     | Some c => negb (client_connected world c)
     | None => false
     end.

(** [SELECT_CLIENT]: the plugin that stays selected. *)
Definition selectClient_selectedPlugin (world : World) (state : State)
    (client : Client.t) : option string :=
  let supported plugin :=
    match plugin with
    | Some p => truthy_string p && client_supportsPlugin world client p
    | None => false
    end in
  if supported (selectedPlugin state) then selectedPlugin state
  else if supported (userPreferredPlugin state) then userPreferredPlugin state
  else None.

(** The names of the members of [Object.prototype]: every plain object
    inherits them. *)
Definition Object_prototype : list string :=
  [ "constructor"; "__defineGetter__"; "__defineSetter__"; "hasOwnProperty";
    "__lookupGetter__"; "__lookupSetter__"; "isPrototypeOf";
    "propertyIsEnumerable"; "toString"; "valueOf"; "__proto__";
    "toLocaleString" ].

(** What [object[key]] gives on a plain object whose own entries are
    arrays: the own entry, else the inherited member of that name (a
    function, or the prototype itself for [__proto__]: truthy, and without
    an [indexOf]), else [undefined]. *)
Inductive Member : Type :=
  | own (plugins : list string)
  | inherited
  | missing.

Definition get_member (object : gmap string (list string)) (key : string)
    : Member :=
  match object !! key with
  | Some plugins => own plugins
  | None => if bool_decide (key ∈ Object_prototype) then inherited else missing
  end.

(** The message of the [TypeError] thrown by [plugins.indexOf(pluginId)]
    and by [enabledAppPlugins.indexOf(pluginId)] on an inherited member (the
    wording is the engine's). *)
Definition not_a_function (callee : string) : string :=
  callee +:+ " is not a function".

(** The draft of [enabledPlugins] after
    [if (!draft.enabledPlugins[selectedApp]) draft.enabledPlugins[selectedApp] = []],
    for a [selectedApp] under which no inherited member is read: the guard
    holds exactly when there is no own entry. *)
Definition ensure_entry (selectedApp : string)
    (enabled : gmap string (list string)) : gmap string (list string) :=
  match enabled !! selectedApp with
  | Some _ => enabled
  | None => <[selectedApp := []]> enabled
  end.

(** [x++] on a number: [x + 1] in binary64, rounded to nearest, ties to
    even. *)
Definition increment (x : float) : float := (x + 1)%float.

Definition reducer (world : World) (state : State) (action : Action) : Outcome :=
  match action with
  | SET_FLIPPER_SERVER payload =>
      Returns (state |> set_flipperServer (Some payload))

  | SET_STATIC_VIEW payload deepLinkPayload =>
      Returns (state
                 |> set_staticView payload
                 |> set_deepLinkPayload (nullish_or_null deepLinkPayload))

  | RESET_SUPPORT_FORM_V2_STATE =>
      Returns (state |> set_staticView None)

  | SELECT_DEVICE payload =>
      Returns (state
                 |> set_staticView None
                 |> set_selectedDevice payload
                 |> set_selectedAppId None
                 |> set_userPreferredDevice
                      match payload with
                      | Some device => Some (BaseDevice.title device)
                      | None => userPreferredDevice state
                      end)

  | REGISTER_DEVICE payload =>
      match registerDevice_newDevices world state payload with
      | inl message => Throws message
      | inr newDevices =>
          let selectNewDevice :=
            registerDevice_selectNewDevice world state payload in
          Returns (state
                     |> set_devices newDevices
                     |> set_selectedDevice
                          (if selectNewDevice then Some payload
                           else selectedDevice state)
                     |> set_selectedAppId
                          (if selectNewDevice
                           then registerDevice_selectedAppId state payload
                           else selectedAppId state))
      end

  | SELECT_PLUGIN payload =>
      match selectPlugin_device state payload with
      | None => Returns state
      | Some device =>
          Returns (state
                     |> set_staticView None
                     |> set_selectedDevice (Some device)
                     |> set_userPreferredDevice
                          (if canBeDefaultDevice device
                           then Some (BaseDevice.title device)
                           else userPreferredDevice state)
                     |> set_selectedAppId
                          (nullish_or (Payload.selectedAppId payload) None)
                     |> set_userPreferredApp
                          match find (id_is (Payload.selectedAppId payload))
                                  (clients state) with
                          | Some c => Some (ClientQuery.app (Client.query c))
                          | None => userPreferredApp state
                          end
                     |> set_selectedPlugin (Some (Payload.selectedPlugin payload))
                     |> set_userPreferredPlugin
                          (Some (Payload.selectedPlugin payload))
                     |> set_deepLinkPayload (Payload.deepLinkPayload payload))
      end

  | NEW_CLIENT payload =>
      let newClients :=
        filter (λ client, Client.id client ≠ Client.id payload) (clients state)
          ++ [payload] in
      let selectNewClient := newClient_selectNewClient world state payload in
      Returns (state
                 |> set_selectedAppId
                      (if selectNewClient then Some (Client.id payload)
                       else selectedAppId state)
                 |> set_selectedDevice
                      (if selectNewClient then Some (Client.device payload)
                       else selectedDevice state)
                 |> set_clients newClients
                 |> set_uninitializedClients
                      (filter
                         (λ c, deviceName c ≠ ClientQuery.device (Client.query payload)
                               ∨ appName c ≠ ClientQuery.app (Client.query payload))
                         (uninitializedClients state)))

  | SELECT_CLIENT payload =>
      match find (λ c, Client.id c = payload) (clients state) with
      | None => Returns state
      | Some client =>
          Returns (state
                     |> set_selectedAppId (Some payload)
                     |> set_selectedDevice (Some (Client.device client))
                     |> set_userPreferredDevice
                          (Some (BaseDevice.title (Client.device client)))
                     |> set_userPreferredApp
                          (Some (ClientQuery.app (Client.query client)))
                     |> set_selectedPlugin
                          (selectClient_selectedPlugin world state client))
      end

  | CLIENT_REMOVED payload =>
      let newClients :=
        filter (λ client, Client.id client ≠ payload) (clients state) in
      Returns (state
                 |> set_selectedAppId
                      (if bool_decide (selectedAppId state = Some payload)
                       then None else selectedAppId state)
                 |> set_clients newClients)

  | START_CLIENT_SETUP payload =>
      Returns (state
                 |> set_uninitializedClients
                      (filter (λ existing, ¬ shallowEqual existing payload)
                         (uninitializedClients state)
                         ++ [payload]))

  | REGISTER_PLUGINS _ =>
      (* [device.loadDevicePlugin] changes the plugins of the devices, none
         of the members this file reads; the state is returned as it is *)
      Returns state

  | SET_PLUGIN_ENABLED pluginId selectedApp =>
      match get_member (enabledPlugins state) selectedApp with
      | inherited =>
          (* the guard is skipped and [plugins] is the inherited member *)
          Throws (not_a_function "plugins.indexOf")
      | own _ | missing =>
          let draft := ensure_entry selectedApp (enabledPlugins state) in
          let plugins := default [] (draft !! selectedApp) in
          Returns (state
                     |> set_enabledPlugins
                          match indexOf pluginId plugins with
                          | None => <[selectedApp := plugins ++ [pluginId]]> draft
                          | Some _ => draft
                          end)
      end

  | SET_DEVICE_PLUGIN_ENABLED pluginId =>
      Returns (state
                 |> set_enabledDevicePlugins
                      (enabledDevicePlugins state ∪ {[ pluginId ]}))

  | SET_PLUGIN_DISABLED pluginId selectedApp =>
      match get_member (enabledPlugins state) selectedApp with
      | inherited => Throws (not_a_function "plugins.indexOf")
      | own _ | missing =>
          let draft := ensure_entry selectedApp (enabledPlugins state) in
          let plugins := default [] (draft !! selectedApp) in
          Returns (state
                     |> set_enabledPlugins
                          match indexOf pluginId plugins with
                          | Some idx => <[selectedApp := delete idx plugins]> draft
                          | None => draft
                          end)
      end

  | SET_DEVICE_PLUGIN_DISABLED pluginId =>
      Returns (state
                 |> set_enabledDevicePlugins
                      (enabledDevicePlugins state ∖ {[ pluginId ]}))

  | APP_PLUGIN_LIST_CHANGED =>
      Returns (state
                 |> set_selectedAppPluginListRevision
                      (increment (selectedAppPluginListRevision state)))

  | OTHER_ACTION _ => Returns state
  end.

(** What a call of the reducer writes to the performance timeline and to
    the console, in order. *)
Inductive Output : Type :=
  | performance_mark (name : string)
  | console_warn (message : string)
  | console_error (message : string).

Definition reducer_output (state : State) (action : Action) : list Output :=
  match action with
  | SELECT_PLUGIN payload =>
      (if truthy_string (Payload.selectedPlugin payload)
       then [performance_mark
               ("activePlugin-" +:+ Payload.selectedPlugin payload)]
       else [])
      ++ match selectPlugin_device state payload with
         | None =>
             [console_warn
                "No valid device / client provided when calling SELECT_PLUGIN"]
         | Some _ => []
         end
  | NEW_CLIENT payload =>
      (λ client,
         console_error
           ("Received a new connection for client " +:+ Client.id client
              +:+ ", but the old connection was not cleaned up"))
        <$> filter (λ client, Client.id client = Client.id payload)
              (clients state)
  | _ => []
  end.

(** The store after [dispatch(action)]: when the reducer throws, the error
    reaches the caller of [dispatch] and the store keeps its state. *)
Definition dispatch (world : World) (state : State) (action : Action) : State :=
  match reducer world state action with
  | Returns state' => state'
  | Throws _ => state
  end.

(** A sequence of actions, each dispatched in the world of its time. *)
Definition run (actions : list (World * Action)) (state : State) : State :=
  foldl (λ s wa, dispatch wa.1 s wa.2) state actions.

(** ** Selectors *)

(** Modelled from the spec: [createSelector] of [selectors/createSelector],
    which builds "pure, memoized derivations recomputed only when their
    declared inputs change": the selector applies the combiner to the
    results of its input selectors.  The inputs of the selectors below are
    members of the state, which a transition replaces and never changes in
    place, so the cache does not show in the result. *)
Definition createSelector1 {S A R : Type} (f1 : S → A) (combiner : A → R)
    : S → R :=
  λ state, combiner (f1 state).

Definition createSelector2 {S A B R : Type} (f1 : S → A) (f2 : S → B)
    (combiner : A → B → R) : S → R :=
  λ state, combiner (f1 state) (f2 state).

Definition createSelector3 {S A B C R : Type} (f1 : S → A) (f2 : S → B)
    (f3 : S → C) (combiner : A → B → C → R) : S → R :=
  λ state, combiner (f1 state) (f2 state) (f3 state).

(** The selectors read [state.connections], the state of this reducer. *)
Definition getSelectedAppId (state : State) : option string := selectedAppId state.
Definition getSelectedDevice (state : State) : option BaseDevice.t :=
  selectedDevice state.
Definition getClients (state : State) : list Client.t := clients state.
Definition getDevices (state : State) : list BaseDevice.t := devices state.

Definition getActiveClient : State → option Client.t :=
  createSelector2 getSelectedAppId getClients
    (λ selectedApp clients,
       find (λ c, Some (Client.id c) = selectedApp) clients).

Definition getMetroDevice : State → option BaseDevice.t :=
  createSelector1 getDevices
    (λ devices,
       find (λ device, BaseDevice.os device = "Metro"
                       ∧ BaseDevice.isArchived device = false) devices).

Definition getActiveDevice : State → option BaseDevice.t :=
  createSelector3 getSelectedDevice getActiveClient getMetroDevice
    (λ selectedDevice client metroDevice,
       if bool_decide (selectedDevice ≠ metroDevice) then selectedDevice
       else match client with
            | Some c => Some (Client.device c)
            | None => selectedDevice
            end).

(** ** Predicates on states *)

(** No two entries of [l] have the same [key]. *)
Definition unique_by {A B : Type} (key : A → B) (l : list A) : Prop :=
  ∀ i j x y, l !! i = Some x → l !! j = Some y → key x = key y → i = j.

Definition unique_clients (state : State) : Prop :=
  unique_by Client.id (clients state).

Definition unique_devices (state : State) : Prop :=
  unique_by BaseDevice.serial (devices state).


(** ** Sample objects, worlds and states *)

Module Sample.
Definition pixel : BaseDevice.t :=
  BaseDevice.mk 1 "emulator-5554" "Pixel" "Android" false.

(** A second object for the same physical device, as created when the
    device comes back. *)
Definition pixel_again : BaseDevice.t :=
  BaseDevice.mk 2 "emulator-5554" "Pixel" "Android" false.

Definition iphone : BaseDevice.t :=
  BaseDevice.mk 3 "0000-1111" "iPhone" "iOS" false.

Definition metro : BaseDevice.t :=
  BaseDevice.mk 4 "http://localhost:8081" "React Native" "Metro" false.

Definition archived_metro : BaseDevice.t :=
  BaseDevice.mk 5 "metro-import" "React Native" "Metro" true.

Definition mail : Client.t :=
  Client.mk 1 "Mail#Android#Pixel#emulator-5554"
    (ClientQuery.mk "Mail" "Android" "Pixel" "emulator-5554") pixel.

Definition maps : Client.t :=
  Client.mk 2 "Maps#Android#Pixel#emulator-5554"
    (ClientQuery.mk "Maps" "Android" "Pixel" "emulator-5554") pixel.

(** A new connection of the app behind [mail]: another object, same id. *)
Definition mail_again : Client.t :=
  Client.mk 3 "Mail#Android#Pixel#emulator-5554"
    (ClientQuery.mk "Mail" "Android" "Pixel" "emulator-5554") pixel.

Definition notes : Client.t :=
  Client.mk 4 "Notes#iOS#iPhone#0000-1111"
    (ClientQuery.mk "Notes" "iOS" "iPhone" "0000-1111") iphone.

Definition online : World := {|
  device_connected := λ _, true;
  device_isConnected := λ _, true;
  client_connected := λ _, true;
  client_supportsPlugin := λ _ _, true;
|}.

Definition offline : World := {|
  device_connected := λ _, false;
  device_isConnected := λ _, false;
  client_connected := λ _, false;
  client_supportsPlugin := λ _ _, true;
|}.

(** The pixel and the iphone registered, [mail] and [maps] connected,
    [mail] selected. *)
Definition busy : State :=
  INITAL_STATE
    |> set_devices [iphone; pixel]
    |> set_clients [maps; mail]
    |> set_selectedDevice (Some pixel)
    |> set_selectedAppId (Some (Client.id mail))
    |> set_uninitializedClients
         [ {| os := "Android"; deviceName := "Pixel"; appName := "Mail" |};
           {| os := "iOS"; deviceName := "iPhone"; appName := "Notes" |} ].

(** [mail] and [maps] are connected and Mail is the preferred app, but
    their device is not registered yet. *)
Definition waiting : State :=
  INITAL_STATE
    |> set_clients [maps; mail]
    |> set_userPreferredApp (Some "Mail").

(** A client whose id is the empty string. *)
Definition blank : Client.t :=
  Client.mk 5 "" (ClientQuery.mk "Mail" "Android" "Pixel" "emulator-5554") pixel.

(** As [busy], with Notes as the preferred app. *)
Definition prefers_notes : State :=
  busy |> set_userPreferredApp (Some "Notes").

(** [SELECT_PLUGIN] for a device plugin of the pixel, without a deep link. *)
Definition device_plugin : Payload.t :=
  Payload.mk "DeviceLogs" undefined js_undefined (present pixel) 0.

(** [SELECT_PLUGIN] that names neither an app nor a device. *)
Definition nowhere : Payload.t :=
  Payload.mk "X" null js_undefined null 0.

(** [SELECT_PLUGIN] on the pixel for an app that is not connected. *)
Definition ghost : Payload.t :=
  Payload.mk "X" (present "Ghost#Android#Pixel#emulator-5554") js_undefined
    (present pixel) 0.

(** The metro bridge is selected while [mail] is the active client. *)
Definition bridged : State :=
  busy
    |> set_devices [archived_metro; pixel; metro]
    |> set_selectedDevice (Some metro).

(** Mail has the Layout and the Network plugin enabled. *)
Definition with_plugins : State :=
  busy |> set_enabledPlugins {[ "Mail" := ["Layout"; "Network"] ]}.
End Sample.

(** ** The selection rules as the specification words them *)

(** The registered device becomes selected when "the prior [selectedDevice]
    is null, or the prior [selectedDevice] is not connected, or
    [userPreferredDevice] equals the new device's title". *)
Definition spec_selects_new_device (world : World) (state : State)
    (payload : BaseDevice.t) : Prop :=
  selectedDevice state = None
  ∨ (∃ selected, selectedDevice state = Some selected
                 ∧ device_isConnected world selected = false)
  ∨ userPreferredDevice state = Some (BaseDevice.title payload).

(** The app selected with a new device: "the id of a client on the new
    device whose app name equals [userPreferredApp] if one exists, else the
    id of the first client on the new device, else null". *)
Definition spec_rederived_appId (state : State) (payload : BaseDevice.t)
    : option string :=
  match find (λ c, Client.device c = payload
                   ∧ Some (ClientQuery.app (Client.query c))
                     = userPreferredApp state)
          (clients state) with
  | Some preferred => Some (Client.id preferred)
  | None =>
      match find (λ c, Client.device c = payload) (clients state) with
      | Some first => Some (Client.id first)
      | None => None
      end
  end.

(** The new client becomes selected when "the prior [selectedAppId] is
    null, or [userPreferredApp] equals the new client's app name, or the
    client in [clients] with id equal to the prior [selectedAppId] reports
    connected === false". *)
Definition spec_selects_new_client (world : World) (state : State)
    (payload : Client.t) : Prop :=
  selectedAppId state = None
  ∨ userPreferredApp state = Some (ClientQuery.app (Client.query payload))
  ∨ (∃ c, c ∈ clients state
          ∧ Some (Client.id c) = selectedAppId state
          ∧ client_connected world c = false).

(** An uninitialized client whose "[deviceName] equals the new client's
    query device and whose [appName] equals the new client's query app". *)
Definition handshake_of (payload : Client.t) (c : UninitializedClient) : Prop :=
  deviceName c = ClientQuery.device (Client.query payload)
  ∧ appName c = ClientQuery.app (Client.query payload).

(** App ids are not the empty string. *)
Definition nonempty_ids (l : list Client.t) : Prop :=
  ∀ c, c ∈ l → Client.id c ≠ "".

(** ** Enabled plugins *)

(** Reading [object[key]] gives no member inherited from
    [Object.prototype]: the key has an own entry or is not the name of such
    a member. *)
Definition no_inherited_member (object : gmap string (list string))
    (key : string) : Prop :=
  object !! key = None → key ∉ Object_prototype.

(** How often [pluginId] occurs in a list of plugins. *)
Definition occurrences (pluginId : string) (plugins : list string) : nat :=
  length (filter (λ p, p = pluginId) plugins).

(** The first non-archived Metro device is at index [i] of [devices]. *)
Definition first_metro_at (devices : list BaseDevice.t) (i : nat)
    (device : BaseDevice.t) : Prop :=
  devices !! i = Some device
  ∧ BaseDevice.os device = "Metro"
  ∧ BaseDevice.isArchived device = false
  ∧ ∀ j d, devices !! j = Some d → (j < i)%nat →
           ¬ (BaseDevice.os d = "Metro" ∧ BaseDevice.isArchived d = false).

(** ** The selected app and the connected clients *)

(** [selectedAppId] is "null or an id present in [clients]". *)
Definition selected_app_known (state : State) : Prop :=
  selectedAppId state = None
  ∨ ∃ c, c ∈ clients state ∧ selectedAppId state = Some (Client.id c).

(** A [SELECT_PLUGIN] that comes with a device and with an app id that no
    client of the state has. *)
Definition selects_unknown_app (state : State) (action : Action) : Prop :=
  match action with
  | SELECT_PLUGIN payload =>
      (∃ device, Payload.selectedDevice payload = present device)
      ∧ (∃ appId, Payload.selectedAppId payload = present appId
                  ∧ ∀ c, c ∈ clients state → Client.id c ≠ appId)
  | _ => False
  end.

(** No action of the sequence selects an unknown app in the state it is
    dispatched in. *)
Fixpoint no_unknown_app (actions : list (World * Action)) (state : State)
    : Prop :=
  match actions with
  | [] => True
  | (world, action) :: actions =>
      ¬ selects_unknown_app state action
      ∧ no_unknown_app actions (dispatch world state action)
  end.

(** ** Action creators *)

Definition selectDevice (payload : option BaseDevice.t) : Action :=
  SELECT_DEVICE payload.

(** [setStaticView] throws for a falsy view; a component is an object and
    never falsy. *)
Definition setStaticView (payload : StaticView) (deepLinkPayload : unknown)
    : string + Action :=
  match payload with
  | None => inl "Cannot set empty static view"
  | Some _ => inr (SET_STATIC_VIEW payload deepLinkPayload)
  end.

Module PluginSelection.
(** The argument of [selectPlugin]: the payload with an optional [time]. *)
Record t : Type := mk {
  selectedPlugin : string;
  selectedAppId : optional string;
  selectedDevice : optional BaseDevice.t;
  deepLinkPayload : unknown;
  time : optional Z;
}.
End PluginSelection.

(** [selectPlugin]; [now] is what [Date.now()] returns at the call. *)
Definition selectPlugin (now : Z) (payload : PluginSelection.t) : Action :=
  SELECT_PLUGIN
    (Payload.mk
       (PluginSelection.selectedPlugin payload)
       (PluginSelection.selectedAppId payload)
       (PluginSelection.deepLinkPayload payload)
       (PluginSelection.selectedDevice payload)
       (default now (nullish_or (PluginSelection.time payload) None))).

Definition selectClient (clientId : string) : Action := SELECT_CLIENT clientId.

Definition setPluginEnabled (pluginId appId : string) : Action :=
  SET_PLUGIN_ENABLED pluginId appId.

Definition setDevicePluginEnabled (pluginId : string) : Action :=
  SET_DEVICE_PLUGIN_ENABLED pluginId.

Definition setDevicePluginDisabled (pluginId : string) : Action :=
  SET_DEVICE_PLUGIN_DISABLED pluginId.

Definition setPluginDisabled (pluginId appId : string) : Action :=
  SET_PLUGIN_DISABLED pluginId appId.

Definition appPluginListChanged : Action := APP_PLUGIN_LIST_CHANGED.

(** ** Lookups *)

(** [x || ''] on a string. *)
Definition or_empty (x : string) : string :=
  if truthy_string x then x else "".

(** [getAvailableClients].  [supportsOS] is the device's method of that
    name; [sort] is [Array.prototype.sort] with the comparator
    [(a, b) => (a.query.app || '').localeCompare(b.query.app)], whose order
    depends on the locale. *)
Definition getAvailableClients
    (supportsOS : BaseDevice.t → string → bool)
    (sort : (Client.t → Client.t → Z) → list Client.t → list Client.t)
    (localeCompare : string → string → Z)
    (device : option BaseDevice.t) (clients : list Client.t) : list Client.t :=
  match device with
  | None => []
  | Some device =>
      sort
        (λ a b, localeCompare (or_empty (ClientQuery.app (Client.query a)))
                  (ClientQuery.app (Client.query b)))
        (filter
           (λ client,
              (supportsOS device (ClientQuery.os (Client.query client)) = true
               ∧ ClientQuery.device_id (Client.query client)
                 = BaseDevice.serial device)
              ∨ ClientQuery.device_id (Client.query client) = "unknown")
           clients)
  end.

(** [appName] and [clientId] may be null or undefined, which no string
    equals. *)
Definition getClientByAppName (clients : list Client.t)
    (appName : option string) : option Client.t :=
  find (λ client, Some (ClientQuery.app (Client.query client)) = appName) clients.

Definition getClientById (clients : list Client.t)
    (clientId : option string) : option Client.t :=
  find (λ client, Some (Client.id client) = clientId) clients.

(** [isPluginEnabled].  [deconstructClientId] splits a client id into the
    parts of its query.  Both collections are guarded against null.  The
    call returns a boolean, or [undefined] ([None]) when the app has no
    entry, or throws a [TypeError] when the app name is that of a member
    the object inherits. *)
Definition isPluginEnabled (deconstructClientId : string → ClientQuery.t)
    (enabledPlugins : option (gmap string (list string)))
    (enabledDevicePlugins : option (gset string))
    (app : option string) (pluginId : string) : string + option bool :=
  if match enabledDevicePlugins with
     | Some plugins => bool_decide (pluginId ∈ plugins)
     | None => false
     end
  then inr (Some true)
  else
    match app, enabledPlugins with
    | Some app, Some enabledPlugins =>
        if truthy_string app then
          let appInfo := deconstructClientId app in
          match get_member enabledPlugins (ClientQuery.app appInfo) with
          | own enabledAppPlugins =>
              inr (Some (bool_decide
                           (is_Some (indexOf pluginId enabledAppPlugins))))
          | inherited => inl (not_a_function "enabledAppPlugins.indexOf")
          | missing => inr None
          end
        else inr (Some false)
    | _, _ => inr (Some false)
    end.

(** ** Migrations of the persisted state *)

Definition persistVersion : Z := 2.

Module Persisted.
(** A persisted snapshot: the members the migrations read or write, each of
    which may be missing, and the [other] members, which they copy. *)
Record t (Other : Type) : Type := mk {
  other : Other;
  userStarredPlugins : optional (gmap string (list string));
  userStarredDevicePlugins : optional (gset string);
  enabledPlugins : optional (gmap string (list string));
  enabledDevicePlugins : optional (gset string);
}.
Arguments mk {Other}.
Arguments other {Other}.
Arguments userStarredPlugins {Other}.
Arguments userStarredDevicePlugins {Other}.
Arguments enabledPlugins {Other}.
Arguments enabledDevicePlugins {Other}.
End Persisted.

(** [x ?? y] with a [y] that is not nullish. *)
Definition nullish_default {A : Type} (x : optional A) (y : A) : A :=
  match x with
  | present a => a
  | undefined | null => y
  end.

(** [persistMigrations[1]] *)
Definition persistMigrations_1 {Other : Type} (state : Persisted.t Other)
    : Persisted.t Other :=
  Persisted.mk
    (Persisted.other state)
    (Persisted.userStarredPlugins state)
    (Persisted.userStarredDevicePlugins state)
    (present (nullish_default (Persisted.userStarredPlugins state) ∅))
    (present (nullish_default (Persisted.userStarredDevicePlugins state)
                (enabledDevicePlugins INITAL_STATE))).

(** [persistMigrations[2]] *)
Definition persistMigrations_2 {Other : Type} (state : Persisted.t Other)
    : Persisted.t Other :=
  Persisted.mk
    (Persisted.other state)
    (Persisted.userStarredPlugins state)
    (Persisted.userStarredDevicePlugins state)
    (present (nullish_default (Persisted.enabledPlugins state) ∅))
    (present (nullish_default (Persisted.enabledDevicePlugins state)
                (enabledDevicePlugins INITAL_STATE))).

(** ** Counting over a run *)

Definition is_plugin_list_change (action : Action) : bool :=
  match action with
  | APP_PLUGIN_LIST_CHANGED => true
  | _ => false
  end.

(** The number of [APP_PLUGIN_LIST_CHANGED] among the actions. *)
Definition plugin_list_changes (actions : list (World * Action)) : nat :=
  length (filter (λ wa : World * Action, is_plugin_list_change wa.2 = true)
            actions).

(** Every list of [enabledPlugins] is free of duplicates. *)
Definition deduplicated (enabled : gmap string (list string)) : Prop :=
  ∀ app plugins, enabled !! app = Some plugins → NoDup plugins.

(** A stand-in for [deconstructClientId] on ids of the form
    [app#os#device#device_id], used on the sample clients only: the part
    before the first [#]. *)
Definition before_hash (id : string) : string :=
  match String.index 0 "#" id with
  | Some n => String.substring 0 n id
  | None => id
  end.

Definition sample_deconstructClientId (id : string) : ClientQuery.t :=
  ClientQuery.mk (before_hash id) "" "" "".

(** Stand-ins for [localeCompare] and for [sort], used on the sample
    clients only: comparison by character codes, and a merge sort. *)
Definition sample_localeCompare (a b : string) : Z :=
  match String.compare a b with
  | Lt => -1
  | Eq => 0
  | Gt => 1
  end.

Definition sample_sort (compare : Client.t → Client.t → Z)
    (l : list Client.t) : list Client.t :=
  @merge_sort _ (λ a b, (compare a b ≤ 0)%Z)
    (λ a b, decide (compare a b ≤ 0)%Z) l.

Definition sample_supportsOS (device : BaseDevice.t) (os : string) : bool :=
  bool_decide (BaseDevice.os device = os).
(** ** Properties *)

(** *** Arrays *)

Lemma unique_by_NoDup {A B : Type} (key : A → B) (l : list A) :
  unique_by key l ↔ NoDup (key <$> l).
Proof.
  rewrite NoDup_alt. unfold unique_by. split.
  - intros Hu i j b Hi Hj.
    apply list_lookup_fmap_Some in Hi as (x & -> & Hx).
    apply list_lookup_fmap_Some in Hj as (y & Hxy & Hy).
    eauto.
  - intros Hn i j x y Hx Hy Hxy. apply (Hn i j (key x)).
    + by rewrite list_lookup_fmap, Hx.
    + by rewrite list_lookup_fmap, Hy, Hxy.
Qed.

Lemma find_Some {A : Type} (P : A → Prop) `{∀ x, Decision (P x)}
    (l : list A) (x : A) :
  find P l = Some x ↔
  ∃ i, l !! i = Some x ∧ P x ∧ ∀ j y, l !! j = Some y → (j < i)%nat → ¬ P y.
Proof.
  unfold find. rewrite fmap_Some. split.
  - intros ([i y] & Hf & ->). apply list_find_Some in Hf. eauto.
  - intros (i & Hf). exists (i, x). split; [|done]. by apply list_find_Some.
Qed.

Lemma find_None {A : Type} (P : A → Prop) `{∀ x, Decision (P x)} (l : list A) :
  find P l = None ↔ ∀ x, x ∈ l → ¬ P x.
Proof.
  unfold find. rewrite fmap_None, list_find_None, Forall_forall. done.
Qed.

Lemma find_elem_of {A : Type} (P : A → Prop) `{∀ x, Decision (P x)}
    (l : list A) (x : A) :
  find P l = Some x → x ∈ l ∧ P x.
Proof.
  intros (i & Hi & HP & _)%find_Some. split; [|done].
  by eapply list_elem_of_lookup_2.
Qed.

Lemma indexOf_None (x : string) (l : list string) : indexOf x l = None ↔ x ∉ l.
Proof.
  unfold indexOf, findIndex. rewrite fmap_None, list_find_None, Forall_forall.
  split; [intros Hl Hx; by apply (Hl x)|intros Hx y Hy ->; done].
Qed.

Lemma indexOf_Some (x : string) (l : list string) (i : nat) :
  indexOf x l = Some i ↔
  l !! i = Some x ∧ ∀ j, (j < i)%nat → l !! j ≠ Some x.
Proof.
  unfold indexOf, findIndex. rewrite fmap_Some. split.
  - intros ([i' y] & (Hi & Hy & Hlt)%list_find_Some & ->). simpl. subst y.
    split; [done|]. intros j Hj Hx. by apply (Hlt j x).
  - intros (Hi & Hlt). exists (i, x). split; [|done].
    apply list_find_Some. split_and!; [done..|].
    intros j y Hj Hji ->. by apply (Hlt j).
Qed.

(** *** Uniqueness of client ids and device serials *)

Lemma newClients_unique (l : list Client.t) (payload : Client.t) :
  unique_by Client.id l →
  unique_by Client.id
    (filter (λ client, Client.id client ≠ Client.id payload) l ++ [payload]).
Proof.
  rewrite !unique_by_NoDup, fmap_app. intros Hl.
  apply NoDup_app. split_and!.
  - apply (sublist_NoDup _ (Client.id <$> l)); [exact Hl|].
    apply fmap_sublist, sublist_filter.
  - intros x (c & -> & (Hc & _)%list_elem_of_filter)%list_elem_of_fmap.
    simpl. by rewrite list_elem_of_singleton.
  - apply NoDup_singleton.
Qed.

Lemma removed_unique (l : list Client.t) (payload : string) :
  unique_by Client.id l →
  unique_by Client.id (filter (λ client, Client.id client ≠ payload) l).
Proof.
  rewrite !unique_by_NoDup. intros Hl.
  apply (sublist_NoDup _ (Client.id <$> l)); [exact Hl|].
  apply fmap_sublist, sublist_filter.
Qed.

Lemma newDevices_unique world state payload newDevices :
  unique_by BaseDevice.serial (devices state) →
  registerDevice_newDevices world state payload = inr newDevices →
  unique_by BaseDevice.serial newDevices.
Proof.
  unfold registerDevice_newDevices.
  rewrite !unique_by_NoDup. intros Hl.
  destruct (list_find _ _) as [[existing d]|] eqn:Hfind.
  - destruct (device_connected world d); [done|]. intros [= <-].
    apply list_find_Some in Hfind as (Hd & Hserial & _).
    rewrite list_fmap_insert, list_insert_id; [done|].
    by rewrite list_lookup_fmap, Hd, <- Hserial.
  - intros [= <-]. rewrite fmap_app. apply NoDup_app. split_and!; [done| |].
    + apply list_find_None in Hfind. rewrite Forall_forall in Hfind.
      intros x (d & -> & Hd)%list_elem_of_fmap. simpl.
      rewrite list_elem_of_singleton. by apply Hfind.
    + apply NoDup_singleton.
Qed.

Lemma reducer_unique world state action state' :
  reducer world state action = Returns state' →
  unique_clients state ∧ unique_devices state →
  unique_clients state' ∧ unique_devices state'.
Proof.
  unfold unique_clients, unique_devices. intros Hstep [Hc Hd].
  destruct action; simpl in Hstep;
    repeat match type of Hstep with
      | context [match ?x with _ => _ end] => destruct x eqn:?
      end;
    simplify_eq; simpl;
    eauto using newDevices_unique, newClients_unique, removed_unique.
Qed.

Lemma dispatch_unique world state action :
  unique_clients state ∧ unique_devices state →
  unique_clients (dispatch world state action)
  ∧ unique_devices (dispatch world state action).
Proof.
  intros Hu. unfold dispatch.
  destruct (reducer world state action) eqn:Hstep; [|done].
  by eapply reducer_unique.
Qed.

Lemma run_unique actions state :
  unique_clients state ∧ unique_devices state →
  unique_clients (run actions state) ∧ unique_devices (run actions state).
Proof.
  revert state. induction actions as [|[world action] actions IH];
    intros state Hu; [done|].
  apply IH, dispatch_unique, Hu.
Qed.

(** C1.  Whatever actions are dispatched from the initial state, in
    whatever state the devices and clients are at each of them, the
    resulting [clients] holds no two entries with the same [id] and the
    resulting [devices] no two entries with the same [serial]. *)
Theorem uniqueness_of_clients_and_devices (actions : list (World * Action)) :
  unique_by Client.id (clients (run actions INITAL_STATE))
  ∧ unique_by BaseDevice.serial (devices (run actions INITAL_STATE)).
Proof.
  apply (run_unique actions INITAL_STATE).
  split; intros i j x y Hi; simpl in Hi; by rewrite lookup_nil in Hi.
Qed.

(** *** [REGISTER_DEVICE] and the [devices] array *)

(** The device found under a serial is the first one with it. *)
Lemma registerDevice_existing (state : State) (payload : BaseDevice.t)
    (i : nat) (d : BaseDevice.t) :
  list_find (λ device, BaseDevice.serial device = BaseDevice.serial payload)
    (devices state) = Some (i, d) ↔
  devices state !! i = Some d
  ∧ BaseDevice.serial d = BaseDevice.serial payload
  ∧ ∀ j d', devices state !! j = Some d' → (j < i)%nat →
            BaseDevice.serial d' ≠ BaseDevice.serial payload.
Proof.
  apply (list_find_Some
           (λ device, BaseDevice.serial device = BaseDevice.serial payload)).
Qed.

(** Where serials are unique, it is the only one. *)
Lemma registerDevice_existing_unique (state : State) (payload : BaseDevice.t)
    (i : nat) (d : BaseDevice.t) :
  unique_devices state →
  devices state !! i = Some d →
  BaseDevice.serial d = BaseDevice.serial payload →
  list_find (λ device, BaseDevice.serial device = BaseDevice.serial payload)
    (devices state) = Some (i, d).
Proof.
  intros Hu Hd Hs. apply registerDevice_existing. split_and!; [done..|].
  intros j d' Hd' Hlt Hs'.
  assert (j = i) by (eapply Hu; [done..|congruence]). lia.
Qed.

Lemma registerDevice_no_existing (state : State) (payload : BaseDevice.t) :
  list_find (λ device, BaseDevice.serial device = BaseDevice.serial payload)
    (devices state) = None ↔
  ∀ d, d ∈ devices state → BaseDevice.serial d ≠ BaseDevice.serial payload.
Proof. by rewrite list_find_None, Forall_forall. Qed.

(** What [REGISTER_DEVICE] does to [devices], in terms of the first device
    with the payload's serial; this holds in every state. *)
Lemma registerDevice_first_match world state payload :
  (∀ i d,
     list_find (λ device, BaseDevice.serial device = BaseDevice.serial payload)
       (devices state) = Some (i, d) →
     if device_connected world d then
       (∃ message, reducer world state (REGISTER_DEVICE payload) = Throws message)
       ∧ dispatch world state (REGISTER_DEVICE payload) = state
     else
       ∃ state', reducer world state (REGISTER_DEVICE payload) = Returns state'
                 ∧ devices state' = <[i := payload]> (devices state))
  ∧ (list_find (λ device, BaseDevice.serial device = BaseDevice.serial payload)
       (devices state) = None →
     ∃ state', reducer world state (REGISTER_DEVICE payload) = Returns state'
               ∧ devices state' = devices state ++ [payload]).
Proof.
  unfold dispatch. simpl. unfold registerDevice_newDevices. split.
  - intros i d ->. destruct (device_connected world d); eauto.
  - intros ->. eauto.
Qed.

(** C2.  Registering a device whose serial is that of a device of
    [devices] that is still connected throws and leaves the store at its
    state; if that device is not connected, the payload takes its place, at
    the same index; and if no device has the serial, the payload is
    appended.  "The" device with the serial: the serials of [devices] are
    distinct. *)
Theorem register_device_throws_replaces_or_appends
    (world : World) (state : State) (payload : BaseDevice.t) :
  (unique_by BaseDevice.serial (devices state) →
   ∀ i d,
     devices state !! i = Some d →
     BaseDevice.serial d = BaseDevice.serial payload →
     if device_connected world d then
       (∃ message, reducer world state (REGISTER_DEVICE payload) = Throws message)
       ∧ dispatch world state (REGISTER_DEVICE payload) = state
     else
       ∃ state', reducer world state (REGISTER_DEVICE payload) = Returns state'
                 ∧ devices state' = <[i := payload]> (devices state)
                 ∧ devices state' !! i = Some payload
                 ∧ length (devices state') = length (devices state))
  ∧ ((∀ d, d ∈ devices state →
           BaseDevice.serial d ≠ BaseDevice.serial payload) →
     ∃ state', reducer world state (REGISTER_DEVICE payload) = Returns state'
               ∧ devices state' = devices state ++ [payload]).
Proof.
  destruct (registerDevice_first_match world state payload) as [Hsome Hnone].
  split.
  - intros Hu i d Hd Hs.
    specialize (Hsome i d (registerDevice_existing_unique _ _ _ _ Hu Hd Hs)).
    destruct (device_connected world d); [done|].
    destruct Hsome as (state' & Hr & Hdevices).
    exists state'. split_and!; [done..| |].
    + rewrite Hdevices. apply list_lookup_insert_eq. by eapply lookup_lt_Some.
    + by rewrite Hdevices, length_insert.
  - intros Hno. by apply Hnone, registerDevice_no_existing.
Qed.

Lemma busy_unique_devices : unique_by BaseDevice.serial (devices Sample.busy).
Proof.
  intros [|[|[|i]]] [|[|[|j]]] x y Hi Hj Hxy; simplify_eq/=; done.
Qed.

(** The three cases on [Sample.busy]: the pixel registered again while
    connected, the pixel's new object registered once the old one is
    disconnected, and a device not seen before. *)
Lemma register_device_witness :
  ((∃ message,
      reducer Sample.online Sample.busy (REGISTER_DEVICE Sample.pixel)
      = Throws message)
   ∧ dispatch Sample.online Sample.busy (REGISTER_DEVICE Sample.pixel)
     = Sample.busy)
  ∧ (∃ state',
       reducer Sample.offline Sample.busy (REGISTER_DEVICE Sample.pixel_again)
       = Returns state'
       ∧ devices state' = [Sample.iphone; Sample.pixel_again])
  ∧ (∃ state',
       reducer Sample.online Sample.busy (REGISTER_DEVICE Sample.metro)
       = Returns state'
       ∧ devices state' = [Sample.iphone; Sample.pixel; Sample.metro]).
Proof.
  split; [|split].
  - apply (proj1 (register_device_throws_replaces_or_appends
                    Sample.online Sample.busy Sample.pixel)
             busy_unique_devices 1%nat Sample.pixel eq_refl eq_refl).
  - destruct (proj1 (register_device_throws_replaces_or_appends
                       Sample.offline Sample.busy Sample.pixel_again)
                busy_unique_devices 1%nat Sample.pixel eq_refl eq_refl)
      as (state' & Hr & Hd & _).
    exists state'. split; [exact Hr|exact Hd].
  - destruct (proj2 (register_device_throws_replaces_or_appends
                       Sample.online Sample.busy Sample.metro))
      as (state' & Hr & Hd).
    + intros d [->|[->|[]%elem_of_nil]%elem_of_cons]%elem_of_cons; done.
    + exists state'. split; [exact Hr|exact Hd].
Defined.

(** *** [REGISTER_DEVICE] and the selection *)

Lemma truthy_string_nonempty (x : string) : x ≠ "" → truthy_string x = true.
Proof. intros Hx. unfold truthy_string. by apply bool_decide_eq_true. Qed.

Lemma registerDevice_selectNewDevice_spec world state payload :
  registerDevice_selectNewDevice world state payload = true
  ↔ spec_selects_new_device world state payload.
Proof.
  unfold registerDevice_selectNewDevice, spec_selects_new_device.
  destruct (selectedDevice state) as [selected|]; [|by intuition].
  rewrite orb_true_iff, negb_true_iff, bool_decide_eq_true. split.
  - intros [Hoff|Hpref]; [right; left; eauto|by right; right].
  - intros [?|[(selected' & [= <-] & Hoff)|Hpref]]; [done|by left|by right].
Qed.

Lemma registerDevice_selectedAppId_spec state payload :
  nonempty_ids (clients state) →
  registerDevice_selectedAppId state payload
  = spec_rederived_appId state payload.
Proof.
  intros Hne. unfold registerDevice_selectedAppId, spec_rederived_appId.
  destruct (find _ (clients state)) as [preferred|] eqn:Hpreferred; simpl.
  - apply find_elem_of in Hpreferred as [Hin _].
    by rewrite (truthy_string_nonempty _ (Hne _ Hin)).
  - by destruct (find _ (clients state)).
Qed.

(** C3.  When [REGISTER_DEVICE] does not throw: if the prior
    [selectedDevice] is null or not connected, or [userPreferredDevice] is
    the new device's title, the new device is the resulting
    [selectedDevice] and the resulting [selectedAppId] is the id of the
    client on the new device with the preferred app name if there is one,
    else of the first client on the new device, else null (app ids being
    non-empty strings); otherwise [selectedDevice] and [selectedAppId] are
    unchanged.  So, unless the new device was selected already, it is
    selected afterwards if and only if one of the three conditions
    holds. *)
Theorem register_device_selection
    (world : World) (state state' : State) (payload : BaseDevice.t) :
  reducer world state (REGISTER_DEVICE payload) = Returns state' →
  (spec_selects_new_device world state payload →
     selectedDevice state' = Some payload
     ∧ (nonempty_ids (clients state) →
        selectedAppId state' = spec_rederived_appId state payload))
  ∧ (¬ spec_selects_new_device world state payload →
     selectedDevice state' = selectedDevice state
     ∧ selectedAppId state' = selectedAppId state)
  ∧ (selectedDevice state ≠ Some payload →
     (selectedDevice state' = Some payload
      ↔ spec_selects_new_device world state payload)).
Proof.
  intros Hstep. simpl in Hstep.
  destruct (registerDevice_newDevices world state payload); [done|].
  injection Hstep as <-. simpl.
  rewrite <- registerDevice_selectNewDevice_spec.
  destruct (registerDevice_selectNewDevice world state payload);
    split_and!; try done.
  intros _. split; [done|]. apply registerDevice_selectedAppId_spec.
Qed.

(** The pixel is registered while two of its apps wait for it: it gets
    selected, together with the preferred app. *)
Lemma register_device_selection_witness :
  ∃ state',
    reducer Sample.online Sample.waiting (REGISTER_DEVICE Sample.pixel)
    = Returns state'
    ∧ selectedDevice state' = Some Sample.pixel
    ∧ selectedAppId state' = Some (Client.id Sample.mail).
Proof.
  eexists. split; [reflexivity|].
  destruct (proj1 (register_device_selection
                     Sample.online Sample.waiting _ Sample.pixel eq_refl))
    as [Hdevice Happ]; [by left|].
  split; [exact Hdevice|]. apply Happ.
  intros c [->|[->|[]%elem_of_nil]%elem_of_cons]%elem_of_cons; done.
Defined.

(** Where the proviso of C3 matters: the preferred client is found, its id
    is the empty string, and [!selectedAppId] sends the reducer on to the
    first client of the device. *)
Lemma register_device_empty_id_falls_through :
  let state :=
    INITAL_STATE
      |> set_clients [Sample.maps; Sample.blank]
      |> set_userPreferredApp (Some "Mail") in
  registerDevice_selectedAppId state Sample.pixel = Some (Client.id Sample.maps)
  ∧ spec_rederived_appId state Sample.pixel = Some "".
Proof. done. Qed.

(** *** [NEW_CLIENT] *)

Lemma find_by_id_unique (l : list Client.t) (selected : option string)
    (c : Client.t) :
  unique_by Client.id l →
  c ∈ l → Some (Client.id c) = selected →
  find (λ c, Some (Client.id c) = selected) l = Some c.
Proof.
  intros Hu (i & Hi)%list_elem_of_lookup Hid. apply find_Some.
  exists i. split_and!; [done..|]. intros j c' Hj Hlt Hid'.
  assert (j = i) by (eapply Hu; [done..|congruence]). lia.
Qed.

Lemma newClient_selectNewClient_spec world state payload :
  unique_by Client.id (clients state) →
  selectedAppId state ≠ Some "" →
  newClient_selectNewClient world state payload = true
  ↔ spec_selects_new_client world state payload.
Proof.
  intros Hu Hne. unfold newClient_selectNewClient, spec_selects_new_client.
  rewrite !orb_true_iff, negb_true_iff, bool_decide_eq_true.
  assert (truthy (selectedAppId state) = false ↔ selectedAppId state = None)
    as ->.
  { destruct (selectedAppId state) as [a|]; [|done]. simpl.
    unfold truthy_string. rewrite bool_decide_eq_false. split; [|done].
    intros Ha. destruct Hne. f_equal. by destruct (decide (a = "")). }
  split.
  - intros [[Hnull|Hpref]|Hoff]; [by left|by right; left|right; right].
    destruct (find _ (clients state)) as [c|] eqn:Hfind; [|done].
    apply find_elem_of in Hfind as [Hin Hid].
    exists c. by rewrite negb_true_iff in Hoff.
  - intros [Hnull|[Hpref|(c & Hin & Hid & Hoff)]];
      [by left; left|by left; right|right].
    by rewrite (find_by_id_unique _ _ _ Hu Hin Hid), Hoff.
Qed.

Lemma newClient_uninitializedClients payload (l : list UninitializedClient) :
  filter (λ c, deviceName c ≠ ClientQuery.device (Client.query payload)
               ∨ appName c ≠ ClientQuery.app (Client.query payload)) l
  = filter (λ c, ¬ handshake_of payload c) l.
Proof.
  apply list_filter_iff. intros c. unfold handshake_of.
  destruct (decide (deviceName c = ClientQuery.device (Client.query payload)));
    destruct (decide (appName c = ClientQuery.app (Client.query payload)));
    tauto.
Qed.

Lemma busy_unique_clients : unique_by Client.id (clients Sample.busy).
Proof.
  intros [|[|[|i]]] [|[|[|j]]] x y Hi Hj Hxy; simplify_eq/=; done.
Qed.

(** C4, as stated, fails: Mail is selected and connected, no app is
    preferred, and Mail connects again under its id.  None of the three
    conditions holds, yet the resulting [selectedAppId] is the new client's
    id and the resulting [selectedDevice] its device, because they were so
    before. *)
Lemma new_client_under_the_selected_id_refutes_the_equivalence :
  ¬ ((selectedAppId
        (dispatch Sample.online Sample.busy (NEW_CLIENT Sample.mail_again))
      = Some (Client.id Sample.mail_again)
      ∧ selectedDevice
          (dispatch Sample.online Sample.busy (NEW_CLIENT Sample.mail_again))
        = Some (Client.device Sample.mail_again))
     ↔ spec_selects_new_client Sample.online Sample.busy Sample.mail_again).
Proof.
  intros [Hselects _].
  destruct Hselects as [Hnull|[Hpreferred|(c & Hc & Hid & Hoff)]]; done.
Qed.

(** C4, amended.  [NEW_CLIENT] returns a state without the uninitialized
    clients that have the device and app name of the new client's query,
    the others kept in their order.  In it the new client is selected (its
    id is [selectedAppId], its device [selectedDevice]) if the prior
    [selectedAppId] is null, or [userPreferredApp] is the new client's app
    name, or the client with the prior [selectedAppId] reports that it is
    not connected, and the selection is the prior one otherwise; so the
    new client is selected afterwards if and only if one of the three
    conditions holds or its id and device were the selection before.  For
    the selection, the ids of [clients] are taken to be distinct and the
    selected id not to be the empty string. *)
Theorem new_client_selection_and_handshake
    (world : World) (state : State) (payload : Client.t) :
  ∃ state',
    reducer world state (NEW_CLIENT payload) = Returns state'
    ∧ uninitializedClients state'
      = filter (λ c, ¬ handshake_of payload c) (uninitializedClients state)
    ∧ (∀ c, c ∈ uninitializedClients state' ↔
            c ∈ uninitializedClients state ∧ ¬ handshake_of payload c)
    ∧ (unique_by Client.id (clients state) →
       selectedAppId state ≠ Some "" →
       (spec_selects_new_client world state payload →
          selectedAppId state' = Some (Client.id payload)
          ∧ selectedDevice state' = Some (Client.device payload))
       ∧ (¬ spec_selects_new_client world state payload →
          selectedAppId state' = selectedAppId state
          ∧ selectedDevice state' = selectedDevice state)
       ∧ ((selectedAppId state' = Some (Client.id payload)
           ∧ selectedDevice state' = Some (Client.device payload))
          ↔ spec_selects_new_client world state payload
            ∨ (selectedAppId state = Some (Client.id payload)
               ∧ selectedDevice state = Some (Client.device payload)))).
Proof.
  eexists. split; [reflexivity|]. simpl.
  rewrite newClient_uninitializedClients. split; [done|]. split.
  { intros c. rewrite list_elem_of_filter. tauto. }
  intros Hu Hne.
  rewrite <- (newClient_selectNewClient_spec _ _ _ Hu Hne).
  destruct (newClient_selectNewClient world state payload);
    split_and!; try done.
  - split; [by left|done].
  - split; [by right|]. by intros [?|?].
Qed.

(** Notes connects while Mail is selected and connected, and Notes is the
    preferred app: the selection moves to Notes and its pending handshake
    is dropped. *)
Lemma new_client_witness :
  ∃ state',
    reducer Sample.online Sample.prefers_notes (NEW_CLIENT Sample.notes)
    = Returns state'
    ∧ selectedAppId state' = Some (Client.id Sample.notes)
    ∧ selectedDevice state' = Some Sample.iphone
    ∧ uninitializedClients state'
      = [ {| os := "Android"; deviceName := "Pixel"; appName := "Mail" |} ].
Proof.
  destruct (new_client_selection_and_handshake
              Sample.online Sample.prefers_notes Sample.notes)
    as (state' & Hr & Hpending & _ & Hselection).
  exists state'. split; [exact Hr|].
  destruct (Hselection busy_unique_clients) as ([Happ Hdevice] & _);
    [discriminate|right; left; reflexivity|].
  split; [exact Happ|]. split; [exact Hdevice|].
  rewrite Hpending. reflexivity.
Defined.

(** A new connection under the id that is selected already leaves the
    selection as it is, which is the new client's id and device although
    none of the three conditions holds. *)
Lemma new_client_same_id_stays_selected :
  ¬ spec_selects_new_client Sample.online Sample.busy Sample.mail_again
  ∧ ∃ state',
      reducer Sample.online Sample.busy (NEW_CLIENT Sample.mail_again)
      = Returns state'
      ∧ selectedAppId state' = Some (Client.id Sample.mail_again)
      ∧ selectedDevice state' = Some (Client.device Sample.mail_again).
Proof.
  split; [|by eexists].
  intros [?|[?|(c & Hc & _ & Hoff)]]; done.
Qed.

(** Where the proviso on the selected id matters: [!state.selectedAppId]
    holds of the empty string as of null. *)
Lemma new_client_empty_selection_counts_as_none :
  ∃ state',
    reducer Sample.online (Sample.busy |> set_selectedAppId (Some ""))
      (NEW_CLIENT Sample.notes) = Returns state'
    ∧ selectedAppId state' = Some (Client.id Sample.notes).
Proof. by eexists. Qed.

(** *** [SELECT_PLUGIN] *)

(** What [SELECT_PLUGIN] returns once a device resolves. *)
Lemma selectPlugin_resolved world state payload device :
  selectPlugin_device state payload = Some device →
  ∃ state',
    reducer world state (SELECT_PLUGIN payload) = Returns state'
    ∧ staticView state' = None
    ∧ selectedDevice state' = Some device
    ∧ selectedAppId state' = nullish_or (Payload.selectedAppId payload) None
    ∧ selectedPlugin state' = Some (Payload.selectedPlugin payload)
    ∧ userPreferredDevice state'
      = (if canBeDefaultDevice device then Some (BaseDevice.title device)
         else userPreferredDevice state)
    ∧ userPreferredApp state'
      = match find (id_is (Payload.selectedAppId payload)) (clients state) with
        | Some c => Some (ClientQuery.app (Client.query c))
        | None => userPreferredApp state
        end
    ∧ userPreferredPlugin state' = Some (Payload.selectedPlugin payload)
    ∧ deepLinkPayload state' = Payload.deepLinkPayload payload.
Proof. intros Hdevice. simpl. rewrite Hdevice. by eexists. Qed.

(** C5.  [SELECT_PLUGIN] with a device and no [deepLinkPayload]: the
    device resolves, and the [deepLinkPayload] of the resulting state is
    [undefined], not [null]. *)
Theorem select_plugin_absent_deep_link_is_undefined :
  ∃ state',
    reducer Sample.online INITAL_STATE (SELECT_PLUGIN Sample.device_plugin)
    = Returns state'
    ∧ selectedDevice state' = Some Sample.pixel
    ∧ deepLinkPayload state' = js_undefined
    ∧ deepLinkPayload state' ≠ js_null.
Proof. eexists. split; [reflexivity|]. done. Qed.

(** [SET_STATIC_VIEW] does turn an absent [deepLinkPayload] into [null]. *)
Lemma set_static_view_absent_deep_link_is_null world state view :
  ∃ state',
    reducer world state (SET_STATIC_VIEW view js_undefined) = Returns state'
    ∧ deepLinkPayload state' = js_null.
Proof. by eexists. Qed.

(** C6.  A [SELECT_PLUGIN] whose payload has no [selectedDevice] (absent
    or null) and whose [selectedAppId] is the id of no client in [clients]
    returns the state as it is. *)
Theorem select_plugin_without_device_is_noop
    (world : World) (state : State) (payload : Payload.t) :
  Payload.selectedDevice payload = undefined
  ∨ Payload.selectedDevice payload = null →
  (∀ c, c ∈ clients state →
        present (Client.id c) ≠ Payload.selectedAppId payload) →
  reducer world state (SELECT_PLUGIN payload) = Returns state
  ∧ dispatch world state (SELECT_PLUGIN payload) = state.
Proof.
  intros Hdevice Hclient.
  assert (selectPlugin_device state payload = None) as Hnone.
  { unfold selectPlugin_device.
    assert (find (id_is (Payload.selectedAppId payload)) (clients state) = None)
      as -> by (by apply find_None).
    by destruct Hdevice as [-> | ->]. }
  unfold dispatch. simpl. by rewrite Hnone.
Qed.

(** The warning that goes with it. *)
Lemma select_plugin_without_device_warns
    (state : State) (payload : Payload.t) :
  selectPlugin_device state payload = None →
  console_warn "No valid device / client provided when calling SELECT_PLUGIN"
  ∈ reducer_output state (SELECT_PLUGIN payload).
Proof.
  intros Hnone. simpl. rewrite Hnone. apply elem_of_app. right.
  by apply list_elem_of_singleton.
Qed.

(** Scenario D of the specification. *)
Lemma select_plugin_without_device_witness :
  reducer Sample.online INITAL_STATE (SELECT_PLUGIN Sample.nowhere)
  = Returns INITAL_STATE.
Proof.
  apply (select_plugin_without_device_is_noop
           Sample.online INITAL_STATE Sample.nowhere).
  - right. reflexivity.
  - intros c Hc. by apply elem_of_nil in Hc.
Defined.

(** *** The selected app is a connected client *)

Lemma find_id_known (P : Client.t → Prop) `{∀ c, Decision (P c)}
    (l : list Client.t) :
  Client.id <$> find P l = None
  ∨ ∃ c, c ∈ l ∧ Client.id <$> find P l = Some (Client.id c).
Proof.
  destruct (find P l) as [c|] eqn:Hfind; [right|by left].
  apply find_elem_of in Hfind as [Hin _]. eauto.
Qed.

Lemma selectPlugin_app_known state payload device :
  ¬ selects_unknown_app state (SELECT_PLUGIN payload) →
  selectPlugin_device state payload = Some device →
  nullish_or (Payload.selectedAppId payload) None = None
  ∨ ∃ c, c ∈ clients state
         ∧ nullish_or (Payload.selectedAppId payload) None = Some (Client.id c).
Proof.
  unfold selectPlugin_device. intros Hknown Hdevice.
  destruct (Payload.selectedAppId payload) as [| |appId] eqn:HappId;
    [by left..|right]. simpl.
  destruct (find (id_is (present appId)) (clients state)) as [c|] eqn:Hfind.
  { apply find_elem_of in Hfind as [Hin [= Hid]]. exists c. by rewrite Hid. }
  destruct (Payload.selectedDevice payload) as [| |given] eqn:Hgiven;
    [done..|].
  destruct Hknown. split; [by exists given|]. exists appId. split; [done|].
  intros c Hin Hid. apply (proj1 (find_None _ _) Hfind c Hin).
  unfold id_is. by rewrite Hid.
Qed.

Lemma reducer_selected_app_known world state action state' :
  selected_app_known state →
  ¬ selects_unknown_app state action →
  reducer world state action = Returns state' →
  selected_app_known state'.
Proof.
  unfold selected_app_known. intros Hinv Hknown Hstep.
  destruct action; simpl in Hstep; try (by simplify_eq; simpl; auto);
    try (by destruct (get_member (enabledPlugins state) selectedApp);
         simplify_eq; simpl; auto).
  - (* REGISTER_DEVICE *)
    destruct (registerDevice_newDevices world state payload); [done|].
    simplify_eq. simpl.
    destruct (registerDevice_selectNewDevice world state payload); [|done].
    unfold registerDevice_selectedAppId.
    destruct (negb _); apply find_id_known.
  - (* SELECT_PLUGIN *)
    destruct (selectPlugin_device state payload) as [device|] eqn:Hdevice;
      simplify_eq; [|done]. simpl.
    by eapply selectPlugin_app_known.
  - (* NEW_CLIENT *)
    simplify_eq. simpl. right.
    destruct (newClient_selectNewClient world state payload) eqn:Hselect.
    { exists payload. split; [|done]. apply elem_of_app. right.
      by apply list_elem_of_singleton. }
    destruct Hinv as [Hnone|(c & Hin & Hid)].
    { (* [!null] holds, so the new client was selected *)
      unfold newClient_selectNewClient in Hselect. by rewrite Hnone in Hselect. }
    destruct (decide (Client.id c = Client.id payload)) as [Heq|Hne].
    + exists payload. split; [|by rewrite Hid, Heq].
      apply elem_of_app. right. by apply list_elem_of_singleton.
    + exists c. split; [|done]. apply elem_of_app. left.
      by apply list_elem_of_filter.
  - (* CLIENT_REMOVED *)
    simplify_eq. simpl. case_bool_decide as Hremoved; [by left|].
    destruct Hinv as [Hnone|(c & Hin & Hid)]; [by left|right].
    exists c. split; [|done]. apply list_elem_of_filter. split; [|done].
    intros Heq. apply Hremoved. by rewrite Hid, Heq.
  - (* SELECT_CLIENT *)
    destruct (find _ (clients state)) as [client|] eqn:Hfind;
      simplify_eq; [|done]. simpl.
    apply find_elem_of in Hfind as [Hin <-]. eauto.
Qed.

Lemma run_selected_app_known actions state :
  selected_app_known state →
  no_unknown_app actions state →
  selected_app_known (run actions state).
Proof.
  revert state. induction actions as [|[world action] actions IH];
    intros state Hinv Hknown; [done|].
  destruct Hknown as [Hknown Hrest]. apply IH; [|done]. simpl.
  unfold dispatch.
  destruct (reducer world state action) eqn:Hstep; [|done].
  by eapply reducer_selected_app_known.
Qed.

(** C7, as stated, fails: from the initial state, a [SELECT_PLUGIN] with a
    device and the id of an app that is not connected leaves that id in
    [selectedAppId] while [clients] is empty. *)
Lemma select_plugin_selects_unknown_app :
  ¬ selected_app_known
      (run [(Sample.online, SELECT_PLUGIN Sample.ghost)] INITAL_STATE).
Proof.
  intros [Hnone|(c & Hin & _)]; [discriminate|].
  by apply elem_of_nil in Hin.
Qed.

(** C7, amended.  A transition keeps [selectedAppId] null or the id of a
    client in [clients], unless it is a [SELECT_PLUGIN] that comes with a
    device and an app id that no client has; so the property holds in every
    state reached from the initial state without such a [SELECT_PLUGIN]. *)
Theorem selected_app_is_a_client_unless_select_plugin_names_another :
  (∀ world state action state',
     selected_app_known state →
     ¬ selects_unknown_app state action →
     reducer world state action = Returns state' →
     selected_app_known state')
  ∧ (∀ actions,
       no_unknown_app actions INITAL_STATE →
       selected_app_known (run actions INITAL_STATE)).
Proof.
  split.
  - apply reducer_selected_app_known.
  - intros actions. apply run_selected_app_known. by left.
Qed.

(** Mail and Notes connect, Notes is selected by a [SELECT_PLUGIN] that
    names it, then Notes disconnects. *)
Lemma selected_app_is_a_client_witness :
  selected_app_known
    (run [ (Sample.online, REGISTER_DEVICE Sample.pixel);
           (Sample.online, NEW_CLIENT Sample.mail);
           (Sample.online, NEW_CLIENT Sample.notes);
           (Sample.online,
            SELECT_PLUGIN
              (Payload.mk "Layout" (present (Client.id Sample.notes))
                 js_undefined (present Sample.iphone) 0));
           (Sample.online, CLIENT_REMOVED (Client.id Sample.notes)) ]
       INITAL_STATE).
Proof.
  apply (proj2 selected_app_is_a_client_unless_select_plugin_names_another).
  simpl. split_and!; try tauto.
  intros [_ (appId & [= <-] & Hunknown)].
  apply (Hunknown Sample.notes); [|reflexivity].
  apply elem_of_cons. right. apply elem_of_cons. by left.
Defined.

(** *** Enabling and disabling plugins *)

Lemma get_member_own (object : gmap string (list string)) (key : string)
    (plugins : list string) :
  object !! key = Some plugins → get_member object key = own plugins.
Proof. unfold get_member. by intros ->. Qed.

Lemma get_member_missing (object : gmap string (list string)) (key : string) :
  object !! key = None → key ∉ Object_prototype →
  get_member object key = missing.
Proof.
  unfold get_member. intros -> Hkey. by rewrite bool_decide_eq_false_2.
Qed.

Lemma get_member_inherited (object : gmap string (list string))
    (key : string) :
  get_member object key = inherited
  ↔ object !! key = None ∧ key ∈ Object_prototype.
Proof.
  unfold get_member. destruct (object !! key); [by split; [|intros []]|].
  case_bool_decide; split; try done; by intros [].
Qed.

Lemma no_inherited_member_get (object : gmap string (list string))
    (key : string) :
  no_inherited_member object key → get_member object key ≠ inherited.
Proof.
  intros Hsafe [Hnone Hkey]%get_member_inherited. by apply Hsafe.
Qed.

(** Where no inherited member is read, the two lookups of the branch are
    those of the own entries. *)
Lemma setPluginEnabled_safe world state p a :
  no_inherited_member (enabledPlugins state) a →
  reducer world state (SET_PLUGIN_ENABLED p a)
  = Returns
      (state
         |> set_enabledPlugins
              match indexOf p (default [] (ensure_entry a (enabledPlugins state)
                                             !! a)) with
              | None =>
                  <[a := default [] (ensure_entry a (enabledPlugins state) !! a)
                         ++ [p]]> (ensure_entry a (enabledPlugins state))
              | Some _ => ensure_entry a (enabledPlugins state)
              end).
Proof.
  intros Hsafe%no_inherited_member_get. simpl.
  by destruct (get_member (enabledPlugins state) a).
Qed.

Lemma setPluginDisabled_safe world state p a :
  no_inherited_member (enabledPlugins state) a →
  reducer world state (SET_PLUGIN_DISABLED p a)
  = Returns
      (state
         |> set_enabledPlugins
              match indexOf p (default [] (ensure_entry a (enabledPlugins state)
                                             !! a)) with
              | Some idx =>
                  <[a := delete idx
                           (default [] (ensure_entry a (enabledPlugins state)
                                          !! a))]>
                    (ensure_entry a (enabledPlugins state))
              | None => ensure_entry a (enabledPlugins state)
              end).
Proof.
  intros Hsafe%no_inherited_member_get. simpl.
  by destruct (get_member (enabledPlugins state) a).
Qed.

Lemma own_entry_no_inherited_member (object : gmap string (list string))
    (key : string) (plugins : list string) :
  object !! key = Some plugins → no_inherited_member object key.
Proof. intros Hentry Hnone. by rewrite Hentry in Hnone. Qed.

Lemma setPluginEnabled_returns world state p a state' :
  reducer world state (SET_PLUGIN_ENABLED p a) = Returns state' →
  no_inherited_member (enabledPlugins state) a.
Proof.
  intros Hstep Hnone Hkey. simpl in Hstep.
  by rewrite (proj2 (get_member_inherited _ _) (conj Hnone Hkey)) in Hstep.
Qed.

Lemma setPluginDisabled_returns world state p a state' :
  reducer world state (SET_PLUGIN_DISABLED p a) = Returns state' →
  no_inherited_member (enabledPlugins state) a.
Proof.
  intros Hstep Hnone Hkey. simpl in Hstep.
  by rewrite (proj2 (get_member_inherited _ _) (conj Hnone Hkey)) in Hstep.
Qed.

(** Where an inherited member is read, both actions throw. *)
Lemma setPlugin_inherited world state p a :
  enabledPlugins state !! a = None → a ∈ Object_prototype →
  reducer world state (SET_PLUGIN_ENABLED p a)
  = Throws (not_a_function "plugins.indexOf")
  ∧ reducer world state (SET_PLUGIN_DISABLED p a)
    = Throws (not_a_function "plugins.indexOf").
Proof.
  intros Hnone Hkey. simpl.
  by rewrite (proj2 (get_member_inherited _ _) (conj Hnone Hkey)).
Qed.

Lemma set_enabledPlugins_same state :
  state |> set_enabledPlugins (enabledPlugins state) = state.
Proof. by destruct state. Qed.

Lemma set_enabledDevicePlugins_same state :
  state |> set_enabledDevicePlugins (enabledDevicePlugins state) = state.
Proof. by destruct state. Qed.

Lemma ensure_entry_lookup (selectedApp : string)
    (enabled : gmap string (list string)) :
  ensure_entry selectedApp enabled !! selectedApp
  = Some (default [] (enabled !! selectedApp)).
Proof.
  unfold ensure_entry.
  destruct (enabled !! selectedApp) as [plugins|] eqn:Hentry; [done|].
  by rewrite lookup_insert_eq.
Qed.

Lemma ensure_entry_present (selectedApp : string)
    (enabled : gmap string (list string)) (plugins : list string) :
  enabled !! selectedApp = Some plugins →
  ensure_entry selectedApp enabled = enabled.
Proof. unfold ensure_entry. by intros ->. Qed.

Lemma indexOf_elem_of (x : string) (l : list string) :
  x ∈ l → ∃ i, indexOf x l = Some i.
Proof.
  intros Hx. destruct (indexOf x l) as [i|] eqn:Hi; [by exists i|].
  by apply indexOf_None in Hi.
Qed.

(** C8, as stated, fails: disabling a plugin for an app without an entry
    in [enabledPlugins] gives the app an empty entry, so the resulting
    state is not the input state. *)
Lemma set_plugin_disabled_creates_entry :
  enabledPlugins INITAL_STATE !! "Mail" = None
  ∧ ∃ state',
      reducer Sample.online INITAL_STATE (SET_PLUGIN_DISABLED "Layout" "Mail")
      = Returns state'
      ∧ enabledPlugins state' !! "Mail" = Some []
      ∧ state' ≠ INITAL_STATE.
Proof.
  split; [done|]. eexists. split; [reflexivity|]. split; [done|].
  intros Heq. apply (f_equal (λ s, enabledPlugins s !! "Mail")) in Heq.
  discriminate Heq.
Qed.

(** C8, amended.  [SET_PLUGIN_DISABLED(p, a)] returns the input state when
    [a] has an entry in [enabledPlugins] that does not hold [p]; when [a]
    has no entry and is not the name of a member of [Object.prototype], it
    returns the input state with an empty entry for [a]; and
    [SET_DEVICE_PLUGIN_DISABLED(p)] returns the input state when [p] is not
    in [enabledDevicePlugins]. *)
Theorem disabling_a_plugin_that_is_not_enabled
    (world : World) (state : State) (p a : string) :
  (∀ plugins,
     enabledPlugins state !! a = Some plugins → p ∉ plugins →
     reducer world state (SET_PLUGIN_DISABLED p a) = Returns state)
  ∧ (enabledPlugins state !! a = None → a ∉ Object_prototype →
     reducer world state (SET_PLUGIN_DISABLED p a)
     = Returns (state |> set_enabledPlugins (<[a := []]> (enabledPlugins state))))
  ∧ (p ∉ enabledDevicePlugins state →
     reducer world state (SET_DEVICE_PLUGIN_DISABLED p) = Returns state).
Proof.
  split_and!.
  - intros plugins Hentry Hp.
    rewrite setPluginDisabled_safe
      by (by eapply own_entry_no_inherited_member).
    rewrite (ensure_entry_present _ _ _ Hentry), Hentry. simpl.
    apply indexOf_None in Hp as ->. by rewrite set_enabledPlugins_same.
  - intros Hentry Hkey.
    rewrite setPluginDisabled_safe by (by intros _).
    unfold ensure_entry. rewrite Hentry.
    by rewrite lookup_insert_eq.
  - intros Hp. simpl.
    assert (enabledDevicePlugins state ∖ {[p]} = enabledDevicePlugins state)
      as -> by (by apply difference_disjoint_L, disjoint_singleton_r).
    by rewrite set_enabledDevicePlugins_same.
Qed.

(** On [Sample.with_plugins]: Mail's entry does not hold Databases, Notes
    has no entry, and Databases is not an enabled device plugin. *)
Lemma disabling_witness :
  reducer Sample.online Sample.with_plugins
    (SET_PLUGIN_DISABLED "Databases" "Mail") = Returns Sample.with_plugins
  ∧ reducer Sample.online Sample.with_plugins
      (SET_PLUGIN_DISABLED "Databases" "Notes")
    = Returns (Sample.with_plugins
                 |> set_enabledPlugins
                      (<["Notes" := []]> (enabledPlugins Sample.with_plugins)))
  ∧ reducer Sample.online Sample.with_plugins
      (SET_DEVICE_PLUGIN_DISABLED "Databases") = Returns Sample.with_plugins.
Proof.
  destruct (disabling_a_plugin_that_is_not_enabled
              Sample.online Sample.with_plugins "Databases" "Mail")
    as (Hentry & _ & Hdevice).
  destruct (disabling_a_plugin_that_is_not_enabled
              Sample.online Sample.with_plugins "Databases" "Notes")
    as (_ & Hnone & _).
  split; [|split].
  - apply (Hentry ["Layout"; "Network"]); [reflexivity|].
    intros [[=]|[[=]|[]%elem_of_nil]%elem_of_cons]%elem_of_cons.
  - apply Hnone; [reflexivity|compute_done].
  - apply Hdevice. simpl. intros Hin.
    repeat (apply elem_of_union in Hin as [Hin|Hin]);
      apply elem_of_singleton in Hin; discriminate Hin.
Defined.

Lemma occurrences_app (p : string) (l k : list string) :
  occurrences p (l ++ k) = (occurrences p l + occurrences p k)%nat.
Proof. unfold occurrences. by rewrite filter_app, length_app. Qed.

Lemma occurrences_absent (p : string) (l : list string) :
  p ∉ l → occurrences p l = 0%nat.
Proof.
  intros Hp. unfold occurrences.
  destruct (filter (λ q, q = p) l) as [|q rest] eqn:Hfilter; [done|].
  assert (q ∈ filter (λ q, q = p) l) as [-> Hq]%list_elem_of_filter
    by (rewrite Hfilter; apply elem_of_cons; by left).
  done.
Qed.

Lemma occurrences_present (p : string) (l : list string) :
  p ∈ l → (1 ≤ occurrences p l)%nat.
Proof.
  intros Hp. unfold occurrences.
  assert (p ∈ filter (λ q, q = p) l) as Hin by by apply list_elem_of_filter.
  destruct (filter (λ q, q = p) l); [by apply elem_of_nil in Hin|simpl; lia].
Qed.

(** The list [SET_PLUGIN_ENABLED] leaves for the app. *)
Lemma setPluginEnabled_entry world state p a :
  no_inherited_member (enabledPlugins state) a →
  ∃ once,
    reducer world state (SET_PLUGIN_ENABLED p a) = Returns once
    ∧ enabledPlugins once !! a
      = Some (if bool_decide (p ∈ default [] (enabledPlugins state !! a))
              then default [] (enabledPlugins state !! a)
              else default [] (enabledPlugins state !! a) ++ [p]).
Proof.
  intros Hsafe. eexists. split; [by apply setPluginEnabled_safe|]. simpl.
  rewrite ensure_entry_lookup. simpl.
  destruct (indexOf p _) as [i|] eqn:Hindex.
  - rewrite ensure_entry_lookup, bool_decide_eq_true_2; [done|].
    apply indexOf_Some in Hindex as [Hi _]. by eapply list_elem_of_lookup_2.
  - rewrite lookup_insert_eq, bool_decide_eq_false_2; [done|].
    by apply indexOf_None.
Qed.

Lemma setPluginEnabled_present world state p a plugins :
  enabledPlugins state !! a = Some plugins → p ∈ plugins →
  reducer world state (SET_PLUGIN_ENABLED p a) = Returns state.
Proof.
  intros Hentry Hp.
  rewrite setPluginEnabled_safe by (by eapply own_entry_no_inherited_member).
  rewrite (ensure_entry_present _ _ _ Hentry), Hentry. simpl.
  destruct (indexOf_elem_of _ _ Hp) as [i ->].
  by rewrite set_enabledPlugins_same.
Qed.

(** C9.  [SET_PLUGIN_ENABLED] for an app named like a member of
    [Object.prototype]: in the initial state, enabling Layout for the app
    "constructor" throws a [TypeError] and leaves the store without an
    entry for the app, where the list of the app should hold Layout. *)
Theorem set_plugin_enabled_throws_for_an_inherited_name :
  reducer Sample.online INITAL_STATE (SET_PLUGIN_ENABLED "Layout" "constructor")
  = Throws "plugins.indexOf is not a function"
  ∧ enabledPlugins
      (dispatch Sample.online INITAL_STATE
         (SET_PLUGIN_ENABLED "Layout" "constructor")) !! "constructor"
    = None.
Proof. split; reflexivity. Qed.

(** X27.  For an app id under which no member of [Object.prototype] is
    read (it has an entry, or is not the name of such a member),
    [SET_PLUGIN_ENABLED(p, a)] applied to its own result returns that
    result again, so [enabledPlugins[a]] is the same after two applications
    as after one.  After one, the list of [a] is the prior list if that
    holds [p] and the prior list with [p] appended otherwise (the prior
    list of an app without an entry being empty): the other entries stay
    as they are and in their order, and [p] occurs exactly once unless it
    occurred several times before. *)
Theorem set_plugin_enabled_is_idempotent
    (world world' : World) (state : State) (p a : string) :
  no_inherited_member (enabledPlugins state) a →
  ∃ once plugins,
    reducer world state (SET_PLUGIN_ENABLED p a) = Returns once
    ∧ reducer world' once (SET_PLUGIN_ENABLED p a) = Returns once
    ∧ enabledPlugins once !! a = Some plugins
    ∧ (p ∈ default [] (enabledPlugins state !! a) →
       plugins = default [] (enabledPlugins state !! a))
    ∧ (p ∉ default [] (enabledPlugins state !! a) →
       plugins = default [] (enabledPlugins state !! a) ++ [p])
    ∧ filter (λ q, q ≠ p) plugins
      = filter (λ q, q ≠ p) (default [] (enabledPlugins state !! a))
    ∧ ((occurrences p (default [] (enabledPlugins state !! a)) ≤ 1)%nat →
       occurrences p plugins = 1%nat).
Proof.
  intros Hsafe.
  destruct (setPluginEnabled_entry world state p a Hsafe)
    as (once & Hr & Hentry).
  exists once. eexists. split; [exact Hr|]. split; [|split; [exact Hentry|]].
  - apply (setPluginEnabled_present _ _ _ _ _ Hentry).
    case_bool_decide; [done|]. apply elem_of_app. right.
    by apply list_elem_of_singleton.
  - case_bool_decide as Hp; split_and!; try done.
    + pose proof (occurrences_present _ _ Hp). lia.
    + rewrite filter_app, filter_cons_False, filter_nil, app_nil_r; [done|].
      by intros Hne.
    + intros _. rewrite occurrences_app, (occurrences_absent _ _ Hp).
      unfold occurrences. by rewrite filter_cons_True.
Qed.

(** Databases is enabled for Mail, twice. *)
Lemma set_plugin_enabled_witness :
  ∃ once,
    reducer Sample.online Sample.with_plugins
      (SET_PLUGIN_ENABLED "Databases" "Mail") = Returns once
    ∧ reducer Sample.offline once (SET_PLUGIN_ENABLED "Databases" "Mail")
      = Returns once
    ∧ enabledPlugins once !! "Mail" = Some ["Layout"; "Network"; "Databases"]
    ∧ occurrences "Databases" ["Layout"; "Network"; "Databases"] = 1%nat.
Proof.
  destruct (set_plugin_enabled_is_idempotent
              Sample.online Sample.offline Sample.with_plugins
              "Databases" "Mail")
    as (once & plugins & Hr & Hagain & Hentry & _ & Happended & _ & Honce);
    [by intros [=]|].
  exists once. split; [exact Hr|]. split; [exact Hagain|].
  assert (plugins = ["Layout"; "Network"; "Databases"]) as Hplugins.
  { apply Happended.
    intros [[=]|[[=]|[]%elem_of_nil]%elem_of_cons]%elem_of_cons. }
  rewrite <- Hplugins. split; [exact Hentry|].
  apply Honce. simpl. apply Nat.le_0_l.
Defined.

(** *** Selectors *)

Lemma getMetroDevice_Some state device :
  getMetroDevice state = Some device
  ↔ ∃ i, first_metro_at (devices state) i device.
Proof.
  unfold getMetroDevice, createSelector1, getDevices, first_metro_at.
  rewrite find_Some. split.
  - intros (i & Hi & [Hos Harchived] & Hfirst). exists i. by split_and!.
  - intros (i & Hi & Hos & Harchived & Hfirst). exists i. by split_and!.
Qed.

Lemma getMetroDevice_None state :
  getMetroDevice state = None
  ↔ ∀ d, d ∈ devices state →
         ¬ (BaseDevice.os d = "Metro" ∧ BaseDevice.isArchived d = false).
Proof. apply find_None. Qed.

(** C10.  [getMetroDevice] is the first device of [devices] with os
    'Metro' that is not archived, and null if there is none.
    [getActiveDevice] is [selectedDevice] when that is not the metro
    device; when it is, [getActiveDevice] is the device of the active
    client if there is one and [selectedDevice] otherwise. *)
Theorem metro_device_and_active_device (state : State) :
  (∀ device,
     getMetroDevice state = Some device
     ↔ ∃ i, first_metro_at (devices state) i device)
  ∧ (getMetroDevice state = None
     ↔ ∀ d, d ∈ devices state →
            ¬ (BaseDevice.os d = "Metro" ∧ BaseDevice.isArchived d = false))
  ∧ (selectedDevice state ≠ getMetroDevice state →
     getActiveDevice state = selectedDevice state)
  ∧ (selectedDevice state = getMetroDevice state →
     (∀ client,
        getActiveClient state = Some client →
        getActiveDevice state = Some (Client.device client))
     ∧ (getActiveClient state = None →
        getActiveDevice state = selectedDevice state)).
Proof.
  split_and!.
  - apply getMetroDevice_Some.
  - apply getMetroDevice_None.
  - intros Hother. unfold getActiveDevice, createSelector3, getSelectedDevice.
    by rewrite bool_decide_eq_true_2.
  - intros Hmetro. unfold getActiveDevice, createSelector3, getSelectedDevice.
    rewrite bool_decide_eq_false_2 by (by intros []).
    split; [intros client Hclient|intros Hclient]; by rewrite Hclient.
Qed.

(** With the metro bridge selected and Mail active, the active device is
    the pixel, and the metro device is the bridge, not the archived one
    before it. *)
Lemma metro_device_and_active_device_witness :
  getMetroDevice Sample.bridged = Some Sample.metro
  ∧ getActiveDevice Sample.bridged = Some Sample.pixel
  ∧ getActiveDevice Sample.busy = Some Sample.pixel.
Proof.
  destruct (metro_device_and_active_device Sample.bridged)
    as (Hmetro & _ & _ & Hselected).
  destruct (metro_device_and_active_device Sample.busy)
    as (_ & _ & Hother & _).
  split; [|split].
  - apply Hmetro. exists 2%nat. split_and!; [reflexivity..|].
    intros [|[|j]] d Hd Hlt [Hos Harchived]; simplify_eq/=; [done..|lia].
  - apply (proj1 (Hselected eq_refl) Sample.mail). reflexivity.
  - apply Hother. discriminate.
Defined.

(** *** The scenarios of the specification, run on the model *)

(** A: the first device registered gets selected; registered again while
    connected, the reducer throws and the store keeps its state. *)
Example scenario_A :
  let registered :=
    run [(Sample.online, REGISTER_DEVICE Sample.pixel)] INITAL_STATE in
  selectedDevice registered = Some Sample.pixel
  ∧ reducer Sample.online registered (REGISTER_DEVICE Sample.pixel)
    = Throws "Cannot register, 'emulator-5554' is still connected"
  ∧ dispatch Sample.online registered (REGISTER_DEVICE Sample.pixel)
    = registered.
Proof. done. Qed.

(** B: removing the selected client clears the selection. *)
Example scenario_B :
  let removed :=
    dispatch Sample.online Sample.busy (CLIENT_REMOVED (Client.id Sample.mail)) in
  selectedAppId removed = None ∧ clients removed = [Sample.maps].
Proof. done. Qed.

(** E: no metro device until one registers, and the same one after an
    unrelated device registers. *)
Example scenario_E :
  getMetroDevice Sample.busy = None
  ∧ getMetroDevice
      (run [ (Sample.online, REGISTER_DEVICE Sample.metro);
             (Sample.online, REGISTER_DEVICE Sample.iphone) ] INITAL_STATE)
    = Some Sample.metro.
Proof. done. Qed.

(** ** Further properties of the reducer and its helpers *)

(** *** More on arrays *)

Lemma find_cons {A : Type} (P : A → Prop) `{∀ x, Decision (P x)}
    (x : A) (l : list A) :
  find P (x :: l) = if decide (P x) then Some x else find P l.
Proof.
  unfold find. simpl. destruct (decide (P x)); [done|].
  by destruct (list_find P l) as [[i y]|].
Qed.

Lemma find_app {A : Type} (P : A → Prop) `{∀ x, Decision (P x)}
    (l k : list A) :
  find P (l ++ k) = match find P l with
                    | Some x => Some x
                    | None => find P k
                    end.
Proof.
  induction l as [|x l IH]; [done|]. simpl.
  rewrite !find_cons. by destruct (decide (P x)).
Qed.

Lemma find_filter {A : Type} (P Q : A → Prop)
    `{∀ x, Decision (P x)} `{∀ x, Decision (Q x)} (l : list A) :
  (∀ x, P x → Q x) → find P (filter Q l) = find P l.
Proof.
  intros HPQ. induction l as [|x l IH]; [done|].
  rewrite filter_cons, (find_cons P x l).
  destruct (decide (Q x)) as [HQ|HQ].
  - rewrite find_cons. by destruct (decide (P x)).
  - rewrite IH. destruct (decide (P x)) as [HP|HP]; [|done].
    destruct HQ. by apply HPQ.
Qed.

Lemma filter_all {A : Type} (P : A → Prop) `{∀ x, Decision (P x)}
    (l : list A) :
  (∀ x, x ∈ l → P x) → filter P l = l.
Proof.
  intros HP. induction l as [|x l IH]; [done|].
  rewrite filter_cons_True by (apply HP; by left).
  f_equal. apply IH. intros y Hy. apply HP. by right.
Qed.

(** *** When the reducer throws *)

(** X1.  The reducer throws in two cases only.  A [REGISTER_DEVICE] whose
    serial is found in [devices] on a device that is still connected throws
    an error that names that serial.  A [SET_PLUGIN_ENABLED] or
    [SET_PLUGIN_DISABLED] for an app that has no entry and is named like a
    member of [Object.prototype] throws the [TypeError] of calling
    [indexOf] on that member. *)
Theorem reducer_throws_in_two_cases_only
    (world : World) (state : State) (action : Action) (message : string) :
  reducer world state action = Throws message
  ↔ (∃ payload i d,
       action = REGISTER_DEVICE payload
       ∧ devices state !! i = Some d
       ∧ BaseDevice.serial d = BaseDevice.serial payload
       ∧ (∀ j d', devices state !! j = Some d' → (j < i)%nat →
                  BaseDevice.serial d' ≠ BaseDevice.serial payload)
       ∧ device_connected world d = true
       ∧ message = "Cannot register, '" +:+ BaseDevice.serial d
                     +:+ "' is still connected")
    ∨ (∃ pluginId selectedApp,
         (action = SET_PLUGIN_ENABLED pluginId selectedApp
          ∨ action = SET_PLUGIN_DISABLED pluginId selectedApp)
         ∧ enabledPlugins state !! selectedApp = None
         ∧ selectedApp ∈ Object_prototype
         ∧ message = "plugins.indexOf is not a function").
Proof.
  split.
  - intros Hthrows.
    destruct action; simpl in Hthrows;
      try (destruct (get_member (enabledPlugins state) selectedApp)
             eqn:Hmember; [done| |done];
           apply get_member_inherited in Hmember as [Hnone Hkey];
           injection Hthrows as <-; right; exists pluginId, selectedApp;
           by auto);
      repeat match type of Hthrows with
        | context [match ?x with _ => _ end] => destruct x eqn:?
        end;
      try discriminate.
    injection Hthrows as <-. left.
    unfold registerDevice_newDevices in *.
    destruct (list_find _ _) as [[i d]|] eqn:Hfind; [|done].
    destruct (device_connected world d) eqn:Hconnected; [|done].
    apply registerDevice_existing in Hfind as (Hd & Hserial & Hfirst).
    exists payload, i, d. by simplify_eq.
  - intros [(payload & i & d & -> & Hd & Hserial & Hfirst & Hconnected & ->)
           |(pluginId & selectedApp & Haction & Hnone & Hkey & ->)].
    + simpl. unfold registerDevice_newDevices.
      rewrite (proj2 (registerDevice_existing state payload i d)) by done.
      by rewrite Hconnected.
    + destruct (setPlugin_inherited world state pluginId selectedApp Hnone Hkey)
        as [Henabled Hdisabled].
      by destruct Haction as [-> | ->].
Qed.

(** *** Devices are never removed *)

Lemma reducer_keeps_serials world state action state' d :
  reducer world state action = Returns state' →
  d ∈ devices state →
  ∃ d', d' ∈ devices state' ∧ BaseDevice.serial d' = BaseDevice.serial d.
Proof.
  intros Hstep Hd.
  destruct action; simpl in Hstep;
    repeat match type of Hstep with
      | context [match ?x with _ => _ end] => destruct x eqn:?
      end;
    simplify_eq; simpl; try (by exists d).
  all: unfold registerDevice_newDevices in *.
  all: destruct (list_find _ _) as [[i found]|] eqn:Hfind;
    [destruct (device_connected world found); simplify_eq|simplify_eq].
  all: try (exists d; split; [apply elem_of_app; by left|done]).
  all: apply registerDevice_existing in Hfind as (Hfound & Hserial & _).
  all: apply list_elem_of_lookup in Hd as [k Hk].
  all: destruct (decide (k = i)) as [->|Hne].
  all: try (exists payload; split;
            [apply list_elem_of_insert; by eapply lookup_lt_Some
            |by simplify_eq]).
  all: exists d; split; [|done].
  all: apply list_elem_of_lookup; exists k; by rewrite list_lookup_insert_ne.
Qed.

Lemma reducer_devices_length world state action state' :
  reducer world state action = Returns state' →
  (length (devices state) ≤ length (devices state'))%nat.
Proof.
  intros Hstep.
  destruct action; simpl in Hstep;
    repeat match type of Hstep with
      | context [match ?x with _ => _ end] => destruct x eqn:?
      end;
    simplify_eq; simpl; try done.
  all: unfold registerDevice_newDevices in *.
  all: destruct (list_find _ _) as [[i found]|];
    [destruct (device_connected world found); simplify_eq|simplify_eq].
  all: rewrite ?length_insert, ?length_app; simpl; lia.
Qed.

(** X2.  No sequence of actions removes a device: a serial found in
    [devices] is found there after any run, and [devices] never gets
    shorter. *)
Theorem registered_devices_stay
    (actions : list (World * Action)) (state : State) (d : BaseDevice.t) :
  d ∈ devices state →
  (∃ d', d' ∈ devices (run actions state)
         ∧ BaseDevice.serial d' = BaseDevice.serial d)
  ∧ (length (devices state) ≤ length (devices (run actions state)))%nat.
Proof.
  revert state d. induction actions as [|[world action] actions IH];
    intros state d Hd; [by eauto|].
  simpl. unfold dispatch.
  destruct (reducer world state action) as [state'|] eqn:Hstep;
    [|by apply IH].
  destruct (reducer_keeps_serials _ _ _ _ _ Hstep Hd) as (d' & Hd' & Hserial).
  destruct (IH state' d' Hd') as [(d'' & Hd'' & Hserial') Hlength].
  split; [exists d''; split; [done|congruence]|].
  pose proof (reducer_devices_length _ _ _ _ Hstep). lia.
Qed.

(** The pixel goes offline, comes back as a new object and a client is
    removed: its serial is still registered. *)
Lemma registered_devices_stay_witness :
  ∃ d', d' ∈ devices
               (run [ (Sample.offline, REGISTER_DEVICE Sample.pixel_again);
                      (Sample.online, CLIENT_REMOVED (Client.id Sample.mail)) ]
                  Sample.busy)
        ∧ BaseDevice.serial d' = "emulator-5554".
Proof.
  apply (registered_devices_stay _ Sample.busy Sample.pixel).
  apply elem_of_cons. right. apply elem_of_cons. by left.
Defined.

(** *** Looking clients up *)

Lemma getClientById_newClients (l : list Client.t) (payload : Client.t)
    (clientId : string) :
  getClientById
    (filter (λ client, Client.id client ≠ Client.id payload) l ++ [payload])
    (Some clientId)
  = if decide (clientId = Client.id payload) then Some payload
    else getClientById l (Some clientId).
Proof.
  unfold getClientById. rewrite find_app.
  destruct (decide (clientId = Client.id payload)) as [->|Hother].
  - assert (find (λ client, Some (Client.id client) = Some (Client.id payload))
              (filter (λ client, Client.id client ≠ Client.id payload) l)
            = None) as ->.
    { apply find_None. intros c [Hc _]%list_elem_of_filter [= Hid]. done. }
    rewrite find_cons. by rewrite decide_True.
  - rewrite find_filter by (intros c [= ->]; done).
    destruct (find _ l); [done|].
    rewrite find_cons, decide_False; [done|]. intros [= Hid]. done.
Qed.

(** X3.  After [NEW_CLIENT], [getClientById] finds the new client under
    its id, also when another client had that id before, and finds under
    every other id what it found before. *)
Theorem new_client_is_found_by_id
    (world : World) (state : State) (payload : Client.t) :
  getClientById (clients (dispatch world state (NEW_CLIENT payload)))
    (Some (Client.id payload)) = Some payload
  ∧ ∀ clientId,
      clientId ≠ Some (Client.id payload) →
      getClientById (clients (dispatch world state (NEW_CLIENT payload)))
        clientId
      = getClientById (clients state) clientId.
Proof.
  unfold dispatch. simpl. split.
  - rewrite getClientById_newClients. by rewrite decide_True.
  - intros [clientId|] Hother.
    + rewrite getClientById_newClients, decide_False; [done|congruence].
    + unfold getClientById.
      rewrite !(proj2 (find_None _ _)); [done|by intros c _ [=]..].
Qed.

(** Mail reconnects: its id now leads to the new connection, the id of
    Maps to the client it led to before. *)
Lemma new_client_is_found_by_id_witness :
  getClientById
    (clients (dispatch Sample.online Sample.busy (NEW_CLIENT Sample.mail_again)))
    (Some (Client.id Sample.maps))
  = Some Sample.maps.
Proof.
  rewrite (proj2 (new_client_is_found_by_id
                    Sample.online Sample.busy Sample.mail_again));
    [reflexivity|discriminate].
Defined.

(** X4.  If the new client takes over the selection because nothing was
    selected or because its app is the preferred one, it is the active
    client afterwards and its device the active device. *)
Theorem new_client_becomes_active
    (world : World) (state : State) (payload : Client.t) :
  selectedAppId state = None
  ∨ userPreferredApp state = Some (ClientQuery.app (Client.query payload)) →
  getActiveClient (dispatch world state (NEW_CLIENT payload)) = Some payload
  ∧ getActiveDevice (dispatch world state (NEW_CLIENT payload))
    = Some (Client.device payload).
Proof.
  intros Hselect.
  assert (newClient_selectNewClient world state payload = true) as Hnew.
  { unfold newClient_selectNewClient. destruct Hselect as [-> | ->]; [done|].
    rewrite bool_decide_eq_true_2 by done. by rewrite orb_true_r. }
  assert (getActiveClient (dispatch world state (NEW_CLIENT payload))
          = Some payload) as Hactive.
  { unfold dispatch, getActiveClient, createSelector2, getSelectedAppId,
      getClients. simpl. rewrite Hnew.
    pose proof (getClientById_newClients (clients state) payload
                  (Client.id payload)) as Hfound.
    rewrite decide_True in Hfound by done. exact Hfound. }
  split; [done|].
  unfold getActiveDevice, createSelector3. rewrite Hactive.
  unfold getSelectedDevice, dispatch. simpl. rewrite Hnew.
  by case_bool_decide.
Qed.

(** The first client to connect is active at once. *)
Lemma new_client_becomes_active_witness :
  getActiveClient (dispatch Sample.online INITAL_STATE (NEW_CLIENT Sample.mail))
  = Some Sample.mail
  ∧ getActiveDevice
      (dispatch Sample.online INITAL_STATE (NEW_CLIENT Sample.mail))
    = Some Sample.pixel.
Proof.
  apply (new_client_becomes_active Sample.online INITAL_STATE Sample.mail).
  left. reflexivity.
Defined.

(** X5.  After [CLIENT_REMOVED], no client is found under the removed id
    and every other id leads where it led before; if the removed id was
    selected there is no active client, while [selectedDevice] stays. *)
Theorem removed_client_is_gone
    (world : World) (state : State) (payload : string) :
  getClientById (clients (dispatch world state (CLIENT_REMOVED payload)))
    (Some payload) = None
  ∧ (∀ clientId,
       clientId ≠ Some payload →
       getClientById (clients (dispatch world state (CLIENT_REMOVED payload)))
         clientId
       = getClientById (clients state) clientId)
  ∧ (selectedAppId state = Some payload →
     getActiveClient (dispatch world state (CLIENT_REMOVED payload)) = None)
  ∧ selectedDevice (dispatch world state (CLIENT_REMOVED payload))
    = selectedDevice state.
Proof.
  unfold dispatch, getClientById. simpl. split_and!; [| | |done].
  - apply find_None. intros c [Hc _]%list_elem_of_filter [= Hid]. done.
  - intros clientId Hother. apply find_filter. intros c <- Hid.
    apply Hother. by rewrite Hid.
  - intros Hselected.
    unfold getActiveClient, createSelector2, getSelectedAppId. simpl.
    rewrite bool_decide_eq_true_2 by done.
    apply find_None. by intros c _ [=].
Qed.

(** Mail is removed while selected. *)
Lemma removed_client_is_gone_witness :
  getActiveClient
    (dispatch Sample.online Sample.busy (CLIENT_REMOVED (Client.id Sample.mail)))
  = None.
Proof.
  apply (removed_client_is_gone Sample.online Sample.busy). reflexivity.
Defined.

(** X6.  [CLIENT_REMOVED] is idempotent, and it returns the state as it is
    when no client has the id and the id is not the selected one. *)
Theorem client_removed_twice_or_unknown
    (world world' : World) (state : State) (payload : string) :
  dispatch world' (dispatch world state (CLIENT_REMOVED payload))
    (CLIENT_REMOVED payload)
  = dispatch world state (CLIENT_REMOVED payload)
  ∧ ((∀ c, c ∈ clients state → Client.id c ≠ payload) →
     selectedAppId state ≠ Some payload →
     reducer world state (CLIENT_REMOVED payload) = Returns state).
Proof.
  unfold dispatch. simpl. split.
  - rewrite list_filter_filter_l by done.
    destruct state; unfold set_selectedAppId, set_clients; simpl.
    repeat case_bool_decide; simplify_eq; done.
  - intros Hunknown Hselected.
    rewrite filter_all by done. rewrite bool_decide_eq_false_2 by done.
    by destruct state.
Qed.

(** Notes was never connected to [Sample.busy]. *)
Lemma client_removed_unknown_witness :
  reducer Sample.online Sample.busy (CLIENT_REMOVED (Client.id Sample.notes))
  = Returns Sample.busy.
Proof.
  apply (client_removed_twice_or_unknown Sample.online Sample.online);
    [|discriminate].
  intros c [->|[->|[]%elem_of_nil]%elem_of_cons]%elem_of_cons; discriminate.
Defined.

Lemma find_iff {A : Type} (P Q : A → Prop)
    `{∀ x, Decision (P x)} `{∀ x, Decision (Q x)} (l : list A) :
  (∀ x, P x ↔ Q x) → find P l = find Q l.
Proof.
  intros HPQ. induction l as [|x l IH]; [done|].
  rewrite !find_cons, IH.
  destruct (decide (P x)) as [HP|HP], (decide (Q x)) as [HQ|HQ];
    try done; by apply HPQ in HP || apply HPQ in HQ.
Qed.

Lemma getActiveClient_getClientById state :
  getActiveClient state = getClientById (clients state) (selectedAppId state).
Proof. done. Qed.

(** The device shown for a selected device and an active client on it, or
    for a selected device without an active client. *)
Lemma getActiveDevice_of_selection state device :
  selectedDevice state = Some device →
  match getActiveClient state with
  | Some client => Client.device client = device
  | None => True
  end →
  getActiveDevice state = Some device.
Proof.
  intros Hselected Hclient.
  unfold getActiveDevice, createSelector3, getSelectedDevice.
  rewrite Hselected. case_bool_decide; [done|].
  destruct (getActiveClient state); by simplify_eq.
Qed.

(** *** [SELECT_CLIENT] *)

Lemma selectClient_found world state payload client :
  getClientById (clients state) (Some payload) = Some client →
  reducer world state (SELECT_CLIENT payload)
  = Returns (state
               |> set_selectedAppId (Some payload)
               |> set_selectedDevice (Some (Client.device client))
               |> set_userPreferredDevice
                    (Some (BaseDevice.title (Client.device client)))
               |> set_userPreferredApp
                    (Some (ClientQuery.app (Client.query client)))
               |> set_selectedPlugin
                    (selectClient_selectedPlugin world state client)).
Proof.
  unfold getClientById. intros Hfound. simpl.
  rewrite (find_iff _ (λ c, Some (Client.id c) = Some payload)), Hfound;
    [done|].
  intros c. split; [by intros ->|by intros [=]].
Qed.

(** X7.  [SELECT_CLIENT] with an id that no client has returns the state
    as it is.  With the id of a client, the client found under it is the
    active client afterwards, its device is the selected and the active
    device, and its device title and app name are the preferred ones. *)
Theorem select_client_activates_the_client
    (world : World) (state : State) (payload : string) :
  ((∀ c, c ∈ clients state → Client.id c ≠ payload) →
   reducer world state (SELECT_CLIENT payload) = Returns state)
  ∧ (∀ client,
       getClientById (clients state) (Some payload) = Some client →
       getActiveClient (dispatch world state (SELECT_CLIENT payload))
       = Some client
       ∧ selectedDevice (dispatch world state (SELECT_CLIENT payload))
         = Some (Client.device client)
       ∧ getActiveDevice (dispatch world state (SELECT_CLIENT payload))
         = Some (Client.device client)
       ∧ userPreferredDevice (dispatch world state (SELECT_CLIENT payload))
         = Some (BaseDevice.title (Client.device client))
       ∧ userPreferredApp (dispatch world state (SELECT_CLIENT payload))
         = Some (ClientQuery.app (Client.query client))).
Proof.
  split.
  - intros Hunknown. simpl.
    by rewrite (proj2 (find_None _ _)) by (intros c Hc; by apply Hunknown).
  - intros client Hfound. unfold dispatch.
    rewrite (selectClient_found _ _ _ _ Hfound).
    assert (getActiveClient
              (state
                 |> set_selectedAppId (Some payload)
                 |> set_selectedDevice (Some (Client.device client))
                 |> set_userPreferredDevice
                      (Some (BaseDevice.title (Client.device client)))
                 |> set_userPreferredApp
                      (Some (ClientQuery.app (Client.query client)))
                 |> set_selectedPlugin
                      (selectClient_selectedPlugin world state client))
            = Some client) as Hactive by done.
    split_and!; try done.
    apply getActiveDevice_of_selection; [done|]. by rewrite Hactive.
Qed.

(** Maps is selected in place of Mail; selecting Notes, which is not
    connected, changes nothing. *)
Lemma select_client_witness :
  getActiveClient
    (dispatch Sample.online Sample.busy (SELECT_CLIENT (Client.id Sample.maps)))
  = Some Sample.maps
  ∧ reducer Sample.online Sample.busy (SELECT_CLIENT (Client.id Sample.notes))
    = Returns Sample.busy.
Proof.
  split.
  - apply (proj2 (select_client_activates_the_client
                    Sample.online Sample.busy (Client.id Sample.maps))
             Sample.maps eq_refl).
  - apply (proj1 (select_client_activates_the_client
                    Sample.online Sample.busy (Client.id Sample.notes))).
    intros c [->|[->|[]%elem_of_nil]%elem_of_cons]%elem_of_cons; discriminate.
Defined.

(** X8.  The plugin selected after [SELECT_CLIENT] is a non-empty plugin
    id that the selected client supports, taken from the prior
    [selectedPlugin] or else from [userPreferredPlugin]; the prior
    [selectedPlugin] is kept whenever the client supports it, and none is
    selected only when the client supports neither. *)
Theorem select_client_selects_a_supported_plugin
    (world : World) (state : State) (payload : string) (client : Client.t) :
  getClientById (clients state) (Some payload) = Some client →
  (∀ p, selectedPlugin (dispatch world state (SELECT_CLIENT payload)) = Some p →
        p ≠ ""
        ∧ client_supportsPlugin world client p = true
        ∧ (selectedPlugin state = Some p ∨ userPreferredPlugin state = Some p))
  ∧ (∀ p, selectedPlugin state = Some p → p ≠ "" →
          client_supportsPlugin world client p = true →
          selectedPlugin (dispatch world state (SELECT_CLIENT payload))
          = Some p)
  ∧ (selectedPlugin (dispatch world state (SELECT_CLIENT payload)) = None →
     ∀ p, selectedPlugin state = Some p ∨ userPreferredPlugin state = Some p →
          p = "" ∨ client_supportsPlugin world client p = false).
Proof.
  intros Hfound. unfold dispatch.
  rewrite (selectClient_found _ _ _ _ Hfound). simpl.
  unfold selectClient_selectedPlugin, truthy_string.
  destruct (selectedPlugin state) as [current|],
    (userPreferredPlugin state) as [preferred|];
    repeat case_bool_decide; simpl;
    repeat match goal with
      | |- context [client_supportsPlugin world client ?p] =>
          destruct (client_supportsPlugin world client p) eqn:?
      end;
    simpl; split_and!; intros; simplify_eq;
    try done; try congruence; try (by split_and!; auto);
    try (by destruct_or!; simplify_eq; auto).
Qed.

(** Mail supports everything, so the plugin in use stays selected. *)
Lemma select_client_plugin_witness :
  selectedPlugin
    (dispatch Sample.online Sample.busy (SELECT_CLIENT (Client.id Sample.mail)))
  = Some "DeviceLogs".
Proof.
  apply (proj1 (proj2 (select_client_selects_a_supported_plugin
                         Sample.online Sample.busy (Client.id Sample.mail)
                         Sample.mail eq_refl)));
    [reflexivity|discriminate|reflexivity].
Defined.

(** *** [SELECT_DEVICE], [selectPlugin] and [setStaticView] *)

(** X9.  After [selectDevice(device)] is dispatched there is no active
    client, the active device is the given device (null for null), the
    static view is closed, and the preferred device title is that of the
    device, or the prior one when the device is null. *)
Theorem select_device_makes_it_active
    (world : World) (state : State) (payload : option BaseDevice.t) :
  getActiveClient (dispatch world state (selectDevice payload)) = None
  ∧ getActiveDevice (dispatch world state (selectDevice payload)) = payload
  ∧ staticView (dispatch world state (selectDevice payload)) = None
  ∧ userPreferredDevice (dispatch world state (selectDevice payload))
    = match payload with
      | Some device => Some (BaseDevice.title device)
      | None => userPreferredDevice state
      end.
Proof.
  assert (getActiveClient (dispatch world state (selectDevice payload)) = None)
    as Hnone.
  { unfold dispatch, getActiveClient, createSelector2, getSelectedAppId.
    simpl. apply find_None. by intros c _ [=]. }
  split_and!; try done.
  unfold getActiveDevice, createSelector3. rewrite Hnone.
  by case_bool_decide.
Qed.

Lemma selectPlugin_device_given state now payload device :
  PluginSelection.selectedDevice payload = present device →
  selectPlugin_device state
    (Payload.mk
       (PluginSelection.selectedPlugin payload)
       (PluginSelection.selectedAppId payload)
       (PluginSelection.deepLinkPayload payload)
       (PluginSelection.selectedDevice payload)
       (default now (nullish_or (PluginSelection.time payload) None)))
  = Some device.
Proof. unfold selectPlugin_device. simpl. by intros ->. Qed.

(** X10.  Dispatching [selectPlugin] with a device and no app makes that
    device the active device, with no active client.  Dispatching it with
    the id of a connected client and no device makes the client found
    under the id the active client, its device the active device and its
    app name the preferred app.  Either way the plugin is selected and
    preferred and the static view closed. *)
Theorem select_plugin_makes_device_or_client_active
    (world : World) (state : State) (now : Z) (payload : PluginSelection.t) :
  (∀ device,
     PluginSelection.selectedDevice payload = present device →
     PluginSelection.selectedAppId payload = undefined
     ∨ PluginSelection.selectedAppId payload = null →
     getActiveDevice (dispatch world state (selectPlugin now payload))
     = Some device
     ∧ getActiveClient (dispatch world state (selectPlugin now payload)) = None
     ∧ selectedPlugin (dispatch world state (selectPlugin now payload))
       = Some (PluginSelection.selectedPlugin payload)
     ∧ userPreferredPlugin (dispatch world state (selectPlugin now payload))
       = Some (PluginSelection.selectedPlugin payload)
     ∧ staticView (dispatch world state (selectPlugin now payload)) = None)
  ∧ (∀ appId client,
       PluginSelection.selectedDevice payload = undefined
       ∨ PluginSelection.selectedDevice payload = null →
       PluginSelection.selectedAppId payload = present appId →
       getClientById (clients state) (Some appId) = Some client →
       getActiveClient (dispatch world state (selectPlugin now payload))
       = Some client
       ∧ getActiveDevice (dispatch world state (selectPlugin now payload))
         = Some (Client.device client)
       ∧ userPreferredApp (dispatch world state (selectPlugin now payload))
         = Some (ClientQuery.app (Client.query client))
       ∧ selectedPlugin (dispatch world state (selectPlugin now payload))
         = Some (PluginSelection.selectedPlugin payload)
       ∧ userPreferredPlugin (dispatch world state (selectPlugin now payload))
         = Some (PluginSelection.selectedPlugin payload)
       ∧ staticView (dispatch world state (selectPlugin now payload)) = None).
Proof.
  split.
  - intros device Hdevice HappId. unfold dispatch, selectPlugin. simpl.
    rewrite (selectPlugin_device_given _ _ _ _ Hdevice).
    assert (nullish_or (PluginSelection.selectedAppId payload) None
            = @None string) as Hnull by (by destruct HappId as [-> | ->]).
    match goal with
    | |- getActiveDevice ?s = _ ∧ _ =>
        assert (getActiveClient s = None) as Hnone
    end.
    { unfold getActiveClient, createSelector2, getSelectedAppId. simpl.
      rewrite Hnull. apply find_None. by intros c _ [=]. }
    split_and!; try done.
    apply getActiveDevice_of_selection; [done|]. by rewrite Hnone.
  - intros appId client Hdevice HappId Hfound.
    assert (find (id_is (present appId)) (clients state) = Some client)
      as Hclient.
    { rewrite <- Hfound. apply find_iff. intros c. unfold id_is.
      split; intros [=]; by f_equal. }
    unfold dispatch, selectPlugin. simpl.
    unfold selectPlugin_device. simpl. rewrite HappId, Hclient.
    assert (nullish_or (PluginSelection.selectedDevice payload)
              (Client.device <$> Some client) = Some (Client.device client))
      as -> by (by destruct Hdevice as [-> | ->]).
    match goal with
    | |- getActiveClient ?s = _ ∧ _ =>
        assert (getActiveClient s = Some client) as Hactive by done
    end.
    split_and!; try done.
    apply getActiveDevice_of_selection; [done|]. by rewrite Hactive.
Qed.

(** A device plugin of the metro bridge, and a plugin of Maps. *)
Lemma select_plugin_active_witness :
  getActiveDevice
    (dispatch Sample.online Sample.busy
       (selectPlugin 7
          (PluginSelection.mk "Hermesdebuggerrn" undefined
             (present Sample.metro) js_undefined undefined)))
  = Some Sample.metro
  ∧ getActiveClient
      (dispatch Sample.online Sample.busy
         (selectPlugin 7
            (PluginSelection.mk "Layout" (present (Client.id Sample.maps))
               null js_undefined (present 3))))
    = Some Sample.maps.
Proof.
  split.
  - apply (proj1 (select_plugin_makes_device_or_client_active
                    Sample.online Sample.busy 7
                    (PluginSelection.mk "Hermesdebuggerrn" undefined
                       (present Sample.metro) js_undefined undefined))
             Sample.metro eq_refl).
    by left.
  - apply (proj2 (select_plugin_makes_device_or_client_active
                    Sample.online Sample.busy 7
                    (PluginSelection.mk "Layout"
                       (present (Client.id Sample.maps))
                       null js_undefined (present 3)))
             (Client.id Sample.maps) Sample.maps); [by right|done..].
Defined.

(** X11.  [setStaticView] throws for an empty view and builds an action
    otherwise; once that action is dispatched the view is shown (the
    static view is not null) and the recorded [deepLinkPayload] is the
    given one, with [null] for an absent one. *)
Theorem set_static_view_shows_a_view
    (world : World) (state : State) (payload : StaticView)
    (deepLink : unknown) :
  (payload = None →
   setStaticView payload deepLink = inl "Cannot set empty static view")
  ∧ (∀ action,
       setStaticView payload deepLink = inr action →
       payload ≠ None
       ∧ staticView (dispatch world state action) = payload
       ∧ deepLinkPayload (dispatch world state action) ≠ js_undefined
       ∧ (deepLink ≠ js_undefined →
          deepLinkPayload (dispatch world state action) = deepLink)
       ∧ (deepLink = js_undefined →
          deepLinkPayload (dispatch world state action) = js_null)).
Proof.
  split; [by intros ->|].
  intros action Haction. destruct payload as [view|]; [|done].
  injection Haction as <-. unfold dispatch. simpl.
  destruct deepLink; split_and!; done.
Qed.

(** A view opened without a deep link. *)
Lemma set_static_view_witness :
  staticView
    (dispatch Sample.online Sample.busy
       (SET_STATIC_VIEW (Some "SupportForm") js_undefined))
  = Some "SupportForm"
  ∧ deepLinkPayload
      (dispatch Sample.online Sample.busy
         (SET_STATIC_VIEW (Some "SupportForm") js_undefined))
    = js_null.
Proof.
  destruct (proj2 (set_static_view_shows_a_view
                     Sample.online Sample.busy (Some "SupportForm")
                     js_undefined) _ eq_refl)
    as (_ & Hview & _ & _ & Hnull).
  split; [exact Hview|by apply Hnull].
Defined.

(** *** Pending handshakes *)

Lemma startClientSetup_NoDup (l : list UninitializedClient)
    (payload : UninitializedClient) :
  NoDup l →
  NoDup (filter (λ existing, ¬ shallowEqual existing payload) l ++ [payload]).
Proof.
  intros Hl. apply NoDup_app. split_and!.
  - by apply NoDup_filter.
  - intros c [Hc _]%list_elem_of_filter ->%list_elem_of_singleton.
    by apply Hc.
  - apply NoDup_singleton.
Qed.

Lemma reducer_pending_NoDup world state action state' :
  reducer world state action = Returns state' →
  NoDup (uninitializedClients state) →
  NoDup (uninitializedClients state').
Proof.
  intros Hstep Hl.
  destruct action; simpl in Hstep;
    repeat match type of Hstep with
      | context [match ?x with _ => _ end] => destruct x eqn:?
      end;
    simplify_eq; simpl;
    auto using startClientSetup_NoDup, NoDup_filter.
Qed.

(** X12.  However the actions of a run from the initial state are chosen,
    [uninitializedClients] never holds the same record twice. *)
Theorem pending_handshakes_are_never_duplicated
    (actions : list (World * Action)) :
  NoDup (uninitializedClients (run actions INITAL_STATE)).
Proof.
  assert (∀ state, NoDup (uninitializedClients state) →
                   NoDup (uninitializedClients (run actions state))) as Hrun.
  { induction actions as [|[world action] actions IH]; intros state Hl;
      [done|].
    apply IH. simpl. unfold dispatch.
    destruct (reducer world state action) eqn:Hstep; [|done].
    by eapply reducer_pending_NoDup. }
  apply Hrun. simpl. apply NoDup_nil_2.
Qed.

(** X13.  [START_CLIENT_SETUP] puts the record last, where it is the only
    record equal to it, and keeps the other records in their order;
    dispatching it a second time changes nothing. *)
Theorem start_client_setup_moves_the_record_last
    (world world' : World) (state : State) (payload : UninitializedClient) :
  ∃ others,
    uninitializedClients (dispatch world state (START_CLIENT_SETUP payload))
    = others ++ [payload]
    ∧ (payload ∉ others)
    ∧ others = filter (λ c, c ≠ payload) (uninitializedClients state)
    ∧ dispatch world' (dispatch world state (START_CLIENT_SETUP payload))
        (START_CLIENT_SETUP payload)
      = dispatch world state (START_CLIENT_SETUP payload).
Proof.
  exists (filter (λ c, c ≠ payload) (uninitializedClients state)).
  unfold dispatch, shallowEqual. simpl. split_and!; [done| |done|].
  - by intros [Hne _]%list_elem_of_filter.
  - unfold set_uninitializedClients. simpl. f_equal.
    rewrite filter_app, list_filter_filter_l by done.
    by rewrite filter_cons_False, filter_nil, app_nil_r by (by intros []).
Qed.

(** *** Enabled plugins *)

Lemma ensure_entry_other (selectedApp app : string)
    (enabled : gmap string (list string)) :
  app ≠ selectedApp →
  ensure_entry selectedApp enabled !! app = enabled !! app.
Proof.
  intros Hother. unfold ensure_entry.
  destruct (enabled !! selectedApp); [done|]. by rewrite lookup_insert_ne.
Qed.

Lemma ensure_entry_deduplicated (selectedApp : string)
    (enabled : gmap string (list string)) :
  deduplicated enabled → deduplicated (ensure_entry selectedApp enabled).
Proof.
  intros Hd app plugins. destruct (decide (app = selectedApp)) as [->|Hother].
  - rewrite ensure_entry_lookup. intros [= <-].
    destruct (enabled !! selectedApp) as [l|] eqn:Hentry; simpl;
      [by eapply Hd|apply NoDup_nil_2].
  - rewrite ensure_entry_other by done. apply Hd.
Qed.

Lemma insert_deduplicated (app : string) (plugins : list string)
    (enabled : gmap string (list string)) :
  deduplicated enabled → NoDup plugins →
  deduplicated (<[app := plugins]> enabled).
Proof.
  intros Hd Hplugins app' plugins'.
  destruct (decide (app' = app)) as [->|Hother].
  - rewrite lookup_insert_eq. by intros [= <-].
  - rewrite lookup_insert_ne by done. apply Hd.
Qed.

Lemma reducer_deduplicated world state action state' :
  reducer world state action = Returns state' →
  deduplicated (enabledPlugins state) →
  deduplicated (enabledPlugins state').
Proof.
  intros Hstep Hd.
  destruct action;
    try (simpl in Hstep;
         repeat match type of Hstep with
           | context [match ?x with _ => _ end] => destruct x eqn:?
           end;
         by simplify_eq).
  - (* SET_PLUGIN_ENABLED *)
    rewrite setPluginEnabled_safe in Hstep
      by (by eapply setPluginEnabled_returns).
    injection Hstep as <-. simpl.
    pose proof (ensure_entry_deduplicated selectedApp _ Hd) as Hdraft.
    rewrite ensure_entry_lookup. simpl.
    destruct (indexOf pluginId _) as [idx|] eqn:Hindex; [done|].
    apply insert_deduplicated; [done|].
    apply NoDup_app. split_and!.
    + destruct (enabledPlugins state !! selectedApp) as [l|] eqn:Hentry;
        simpl; [by eapply Hd|apply NoDup_nil_2].
    + intros q Hq ->%list_elem_of_singleton. by apply indexOf_None in Hindex.
    + apply NoDup_singleton.
  - (* SET_PLUGIN_DISABLED *)
    rewrite setPluginDisabled_safe in Hstep
      by (by eapply setPluginDisabled_returns).
    injection Hstep as <-. simpl.
    pose proof (ensure_entry_deduplicated selectedApp _ Hd) as Hdraft.
    rewrite ensure_entry_lookup. simpl.
    destruct (indexOf pluginId _) as [idx|] eqn:Hindex; [|done].
    apply insert_deduplicated; [done|].
    eapply sublist_NoDup; [|apply sublist_delete].
    destruct (enabledPlugins state !! selectedApp) as [l|] eqn:Hentry;
      simpl; [by eapply Hd|apply NoDup_nil_2].
Qed.

(** X14.  In every state of a run from the initial state, no list of
    [enabledPlugins] holds a plugin id twice. *)
Theorem enabled_plugins_stay_deduplicated
    (actions : list (World * Action)) (app : string) (plugins : list string) :
  enabledPlugins (run actions INITAL_STATE) !! app = Some plugins →
  NoDup plugins.
Proof.
  assert (∀ state, deduplicated (enabledPlugins state) →
                   deduplicated (enabledPlugins (run actions state))) as Hrun.
  { induction actions as [|[world action] actions IH]; intros state Hd;
      [done|].
    apply IH. simpl. unfold dispatch.
    destruct (reducer world state action) eqn:Hstep; [|done].
    by eapply reducer_deduplicated. }
  apply (Hrun INITAL_STATE). intros app' plugins'. simpl.
  by rewrite lookup_empty.
Qed.

(** Layout is enabled for Mail twice, with a disabling in between. *)
Lemma enabled_plugins_stay_deduplicated_witness :
  NoDup ["Network"; "Layout"].
Proof.
  apply (enabled_plugins_stay_deduplicated
           [ (Sample.online, SET_PLUGIN_ENABLED "Layout" "Mail");
             (Sample.online, SET_PLUGIN_ENABLED "Network" "Mail");
             (Sample.online, SET_PLUGIN_DISABLED "Layout" "Mail");
             (Sample.online, SET_PLUGIN_ENABLED "Layout" "Mail");
             (Sample.online, SET_PLUGIN_ENABLED "Layout" "Mail") ]
           "Mail").
  reflexivity.
Defined.

Lemma indexOf_middle (p : string) (before after : list string) :
  p ∉ before → indexOf p (before ++ p :: after) = Some (length before).
Proof.
  intros Hp. apply indexOf_Some. split; [by apply list_lookup_middle|].
  intros j Hj Hlookup. rewrite lookup_app_l in Hlookup by done.
  apply Hp. by eapply list_elem_of_lookup_2.
Qed.

(** X15.  [SET_PLUGIN_DISABLED(p, a)] removes the first occurrence of [p]
    from the list of [a] and nothing else, in that list or in the list of
    another app; so in a list without duplicates [p] is gone afterwards. *)
Theorem disabling_removes_the_first_occurrence
    (world : World) (state : State) (p a : string)
    (before after : list string) :
  enabledPlugins state !! a = Some (before ++ p :: after) →
  p ∉ before →
  enabledPlugins (dispatch world state (SET_PLUGIN_DISABLED p a)) !! a
  = Some (before ++ after)
  ∧ (∀ other, other ≠ a →
       enabledPlugins (dispatch world state (SET_PLUGIN_DISABLED p a)) !! other
       = enabledPlugins state !! other)
  ∧ (NoDup (before ++ p :: after) → p ∉ before ++ after).
Proof.
  intros Hentry Hp. unfold dispatch.
  rewrite setPluginDisabled_safe by (by eapply own_entry_no_inherited_member).
  simpl.
  rewrite (ensure_entry_present _ _ _ Hentry), Hentry. simpl.
  rewrite (indexOf_middle _ _ _ Hp), delete_middle. split_and!.
  - by rewrite lookup_insert_eq.
  - intros other Hother. by rewrite lookup_insert_ne.
  - intros Hnodup Hin.
    apply NoDup_app in Hnodup as (_ & _ & [Hafter _]%NoDup_cons).
    apply elem_of_app in Hin as [Hin|Hin]; done.
Qed.

(** Layout is disabled for Mail. *)
Lemma disabling_removes_witness :
  enabledPlugins
    (dispatch Sample.online Sample.with_plugins
       (SET_PLUGIN_DISABLED "Layout" "Mail")) !! "Mail"
  = Some ["Network"].
Proof.
  apply (disabling_removes_the_first_occurrence
           Sample.online Sample.with_plugins "Layout" "Mail" [] ["Network"]).
  - reflexivity.
  - apply not_elem_of_nil.
Defined.

(** X16.  Enabling a plugin that the list of the app does not hold and
    disabling it again gives back the very state, when the app had an
    entry. *)
Theorem enabling_then_disabling_restores_the_state
    (world world' : World) (state : State) (p a : string)
    (plugins : list string) :
  enabledPlugins state !! a = Some plugins →
  p ∉ plugins →
  dispatch world' (dispatch world state (SET_PLUGIN_ENABLED p a))
    (SET_PLUGIN_DISABLED p a)
  = state.
Proof.
  intros Hentry Hp. unfold dispatch.
  rewrite setPluginEnabled_safe by (by eapply own_entry_no_inherited_member).
  rewrite (ensure_entry_present _ _ _ Hentry), Hentry. simpl default.
  rewrite (proj2 (indexOf_None _ _) Hp).
  rewrite setPluginDisabled_safe
    by (eapply own_entry_no_inherited_member; simpl; apply lookup_insert_eq).
  simpl.
  rewrite (ensure_entry_present _ _ (plugins ++ [p]))
    by (by rewrite lookup_insert_eq).
  rewrite lookup_insert_eq. simpl.
  rewrite (indexOf_middle _ _ _ Hp), delete_middle, app_nil_r.
  rewrite insert_insert_eq, insert_id by done.
  by destruct state.
Qed.

(** Databases is enabled for Mail and disabled again. *)
Lemma enabling_then_disabling_witness :
  dispatch Sample.offline
    (dispatch Sample.online Sample.with_plugins
       (SET_PLUGIN_ENABLED "Databases" "Mail"))
    (SET_PLUGIN_DISABLED "Databases" "Mail")
  = Sample.with_plugins.
Proof.
  apply (enabling_then_disabling_restores_the_state
           Sample.online Sample.offline Sample.with_plugins
           "Databases" "Mail" ["Layout"; "Network"]); [reflexivity|].
  intros [[=]|[[=]|[]%elem_of_nil]%elem_of_cons]%elem_of_cons.
Defined.

(** X17.  A device plugin is enabled after [SET_DEVICE_PLUGIN_ENABLED] and
    not enabled after [SET_DEVICE_PLUGIN_DISABLED]; neither touches another
    plugin; enabling twice is enabling once; and enabling a plugin that was
    not enabled and disabling it again gives back the very state. *)
Theorem device_plugins_behave_as_a_set
    (world world' : World) (state : State) (p : string) :
  p ∈ enabledDevicePlugins (dispatch world state (SET_DEVICE_PLUGIN_ENABLED p))
  ∧ (p ∉ enabledDevicePlugins
           (dispatch world state (SET_DEVICE_PLUGIN_DISABLED p)))
  ∧ (∀ q, q ≠ p →
       (q ∈ enabledDevicePlugins
              (dispatch world state (SET_DEVICE_PLUGIN_ENABLED p))
        ↔ q ∈ enabledDevicePlugins state)
       ∧ (q ∈ enabledDevicePlugins
                (dispatch world state (SET_DEVICE_PLUGIN_DISABLED p))
          ↔ q ∈ enabledDevicePlugins state))
  ∧ dispatch world' (dispatch world state (SET_DEVICE_PLUGIN_ENABLED p))
      (SET_DEVICE_PLUGIN_ENABLED p)
    = dispatch world state (SET_DEVICE_PLUGIN_ENABLED p)
  ∧ (p ∉ enabledDevicePlugins state →
     dispatch world' (dispatch world state (SET_DEVICE_PLUGIN_ENABLED p))
       (SET_DEVICE_PLUGIN_DISABLED p)
     = state).
Proof.
  unfold dispatch. simpl. split_and!.
  - apply elem_of_union. right. by apply elem_of_singleton.
  - rewrite elem_of_difference, elem_of_singleton. tauto.
  - intros q Hq.
    rewrite elem_of_union, elem_of_difference, !elem_of_singleton. tauto.
  - unfold set_enabledDevicePlugins. simpl. f_equal.
    apply set_eq. intros q. rewrite !elem_of_union. tauto.
  - intros Hp. destruct state. unfold set_enabledDevicePlugins. simpl in *.
    f_equal. apply set_eq. intros q.
    rewrite elem_of_difference, elem_of_union, elem_of_singleton.
    split; [tauto|]. intros Hq. split; [by left|by intros ->].
Qed.

(** Databases is switched on and off again as a device plugin. *)
Lemma device_plugins_witness :
  dispatch Sample.offline
    (dispatch Sample.online Sample.busy (SET_DEVICE_PLUGIN_ENABLED "Databases"))
    (SET_DEVICE_PLUGIN_DISABLED "Databases")
  = Sample.busy.
Proof.
  apply (device_plugins_behave_as_a_set
           Sample.online Sample.offline Sample.busy "Databases").
  simpl. intros Hin.
  repeat (apply elem_of_union in Hin as [Hin|Hin]);
    apply elem_of_singleton in Hin; discriminate Hin.
Defined.

(** *** The revision counter *)

Lemma reducer_revision world state action state' :
  reducer world state action = Returns state' →
  selectedAppPluginListRevision state'
  = if is_plugin_list_change action
    then increment (selectedAppPluginListRevision state)
    else selectedAppPluginListRevision state.
Proof.
  intros Hstep.
  destruct action; simpl in Hstep;
    repeat match type of Hstep with
      | context [match ?x with _ => _ end] => destruct x eqn:?
      end;
    by simplify_eq.
Qed.

(** X18.  Over any run, [selectedAppPluginListRevision] is its value at
    the start with [++] applied once for every [APP_PLUGIN_LIST_CHANGED]
    of the run: no other action changes it, nor does an action on which
    the reducer throws.  From the initial state it is [0] with that many
    [++]. *)
Theorem revision_counts_plugin_list_changes
    (actions : list (World * Action)) (state : State) :
  selectedAppPluginListRevision (run actions state)
  = Nat.iter (plugin_list_changes actions) increment
      (selectedAppPluginListRevision state)
  ∧ selectedAppPluginListRevision (run actions INITAL_STATE)
    = Nat.iter (plugin_list_changes actions) increment 0%float.
Proof.
  assert (∀ state,
            selectedAppPluginListRevision (run actions state)
            = Nat.iter (plugin_list_changes actions) increment
                (selectedAppPluginListRevision state)) as Hrun.
  { clear state. unfold plugin_list_changes.
    induction actions as [|[world action] actions IH]; intros state; [done|].
    simpl. rewrite IH. rewrite filter_cons. simpl. unfold dispatch.
    destruct (reducer world state action) as [state'|message] eqn:Hstep.
    - rewrite (reducer_revision _ _ _ _ Hstep).
      destruct (is_plugin_list_change action); simpl; [|done].
      by rewrite <- Nat.iter_succ_r.
    - destruct action; simpl in Hstep;
        repeat match type of Hstep with
          | context [match ?x with _ => _ end] => destruct x eqn:?
          end;
        by try discriminate. }
  split; [apply Hrun|apply (Hrun INITAL_STATE)].
Qed.

(** The counter of a number stops at 2^53, the first integer whose
    successor is no binary64 number. *)
Example increment_is_stuck_at_2_to_the_53 :
  increment 9007199254740991%float = 9007199254740992%float
  ∧ increment 9007199254740992%float = 9007199254740992%float.
Proof. split; reflexivity. Qed.

(** *** Migrations *)

(** X19.  Both migrations leave [enabledPlugins] and
    [enabledDevicePlugins] filled in.  The first takes them from the
    starred members when those are there, whatever [enabledPlugins] the
    snapshot held, and from the empty map and the initial device plugins
    when they are missing or null; the second keeps what is there and
    fills in the same defaults. *)
Theorem migrations_fill_in_the_enabled_plugins
    {Other : Type} (state : Persisted.t Other) :
  (∃ plugins devicePlugins,
     Persisted.enabledPlugins (persistMigrations_1 state) = present plugins
     ∧ Persisted.enabledDevicePlugins (persistMigrations_1 state)
       = present devicePlugins
     ∧ (∀ starred, Persisted.userStarredPlugins state = present starred →
                   plugins = starred)
     ∧ (Persisted.userStarredPlugins state = undefined
        ∨ Persisted.userStarredPlugins state = null → plugins = ∅)
     ∧ (∀ starred, Persisted.userStarredDevicePlugins state = present starred →
                   devicePlugins = starred)
     ∧ (Persisted.userStarredDevicePlugins state = undefined
        ∨ Persisted.userStarredDevicePlugins state = null →
        devicePlugins = enabledDevicePlugins INITAL_STATE))
  ∧ (∃ plugins devicePlugins,
       Persisted.enabledPlugins (persistMigrations_2 state) = present plugins
       ∧ Persisted.enabledDevicePlugins (persistMigrations_2 state)
         = present devicePlugins
       ∧ (∀ enabled, Persisted.enabledPlugins state = present enabled →
                     plugins = enabled)
       ∧ (Persisted.enabledPlugins state = undefined
          ∨ Persisted.enabledPlugins state = null → plugins = ∅)
       ∧ (∀ enabled, Persisted.enabledDevicePlugins state = present enabled →
                     devicePlugins = enabled)
       ∧ (Persisted.enabledDevicePlugins state = undefined
          ∨ Persisted.enabledDevicePlugins state = null →
          devicePlugins = enabledDevicePlugins INITAL_STATE)).
Proof.
  split; eexists; eexists; (split; [reflexivity|]);
    (split; [reflexivity|]); simpl; split_and!.
  all: try (intros x Hx; by rewrite Hx).
  all: intros [Hx|Hx]; by rewrite Hx.
Qed.

(** X20.  A migrated snapshot passes through the migrations unchanged:
    the second migration leaves the result of the first as it is, and each
    migration applied twice does what it does applied once.  Neither
    touches the starred members or the other members. *)
Theorem migrations_are_idempotent_and_compose
    {Other : Type} (state : Persisted.t Other) :
  persistMigrations_2 (persistMigrations_1 state) = persistMigrations_1 state
  ∧ persistMigrations_1 (persistMigrations_1 state) = persistMigrations_1 state
  ∧ persistMigrations_2 (persistMigrations_2 state) = persistMigrations_2 state
  ∧ Persisted.other (persistMigrations_2 (persistMigrations_1 state))
    = Persisted.other state
  ∧ Persisted.userStarredPlugins (persistMigrations_2 (persistMigrations_1 state))
    = Persisted.userStarredPlugins state
  ∧ Persisted.userStarredDevicePlugins
      (persistMigrations_2 (persistMigrations_1 state))
    = Persisted.userStarredDevicePlugins state.
Proof. by destruct state. Qed.

(** *** [isPluginEnabled] *)

Lemma isPluginEnabled_app deconstructClientId enabled devicePlugins app p :
  match devicePlugins with
  | Some plugins => p ∉ plugins
  | None => True
  end →
  app ≠ "" →
  isPluginEnabled deconstructClientId (Some enabled) devicePlugins (Some app) p
  = match get_member enabled (ClientQuery.app (deconstructClientId app)) with
    | own plugins => inr (Some (bool_decide (p ∈ plugins)))
    | inherited => inl (not_a_function "enabledAppPlugins.indexOf")
    | missing => inr None
    end.
Proof.
  intros Hp Happ. unfold isPluginEnabled, truthy_string.
  assert (match devicePlugins with
          | Some plugins => bool_decide (p ∈ plugins)
          | None => false
          end = false) as ->.
  { destruct devicePlugins; [by apply bool_decide_eq_false_2|done]. }
  rewrite bool_decide_eq_true_2 by done.
  destruct (get_member enabled _) as [plugins| |]; [|done..].
  do 2 f_equal. apply bool_decide_ext. split.
  - intros [i Hi]. apply indexOf_Some in Hi as [Hi _].
    by eapply list_elem_of_lookup_2.
  - intros Hin. destruct (indexOf_elem_of _ _ Hin) as [i Hi]. by exists i.
Qed.

(** X21.  What is enabled through the reducer is enabled for
    [isPluginEnabled], read on the resulting state.  A device plugin
    enabled with [setDevicePluginEnabled] is enabled for every app and for
    none.  A plugin enabled with [setPluginEnabled] for an app name is
    enabled for every client id of that app.  A plugin disabled with
    [setPluginDisabled] is not enabled for those client ids, provided it is
    no device plugin and the lists hold no duplicates.  The app name is one
    under which no member of [Object.prototype] is read: it has an entry or
    is not the name of such a member. *)
Theorem is_plugin_enabled_follows_the_reducer
    (deconstructClientId : string → ClientQuery.t)
    (world : World) (state : State) (p a : string) :
  (∀ app,
     let state' := dispatch world state (setDevicePluginEnabled p) in
     isPluginEnabled deconstructClientId (Some (enabledPlugins state'))
       (Some (enabledDevicePlugins state')) app p = inr (Some true))
  ∧ (∀ app,
       app ≠ "" → ClientQuery.app (deconstructClientId app) = a →
       no_inherited_member (enabledPlugins state) a →
       let state' := dispatch world state (setPluginEnabled p a) in
       isPluginEnabled deconstructClientId (Some (enabledPlugins state'))
         (Some (enabledDevicePlugins state')) (Some app) p = inr (Some true))
  ∧ (∀ app,
       app ≠ "" → ClientQuery.app (deconstructClientId app) = a →
       no_inherited_member (enabledPlugins state) a →
       deduplicated (enabledPlugins state) →
       p ∉ enabledDevicePlugins state →
       let state' := dispatch world state (setPluginDisabled p a) in
       isPluginEnabled deconstructClientId (Some (enabledPlugins state'))
         (Some (enabledDevicePlugins state')) (Some app) p = inr (Some false)).
Proof.
  split_and!.
  - intros app. unfold dispatch, isPluginEnabled. simpl.
    rewrite bool_decide_eq_true_2; [done|].
    apply elem_of_union. right. by apply elem_of_singleton.
  - intros app Happ Ha Hsafe state'.
    destruct (decide (p ∈ enabledDevicePlugins state')) as [Hdevice|Hdevice].
    { unfold isPluginEnabled. by rewrite bool_decide_eq_true_2. }
    rewrite isPluginEnabled_app, Ha by done.
    destruct (setPluginEnabled_entry world state p a Hsafe)
      as (once & Hr & Hentry).
    unfold state', dispatch, setPluginEnabled. rewrite Hr.
    rewrite (get_member_own _ _ _ Hentry). do 2 f_equal.
    apply bool_decide_eq_true. case_bool_decide; [done|].
    apply elem_of_app. right. by apply list_elem_of_singleton.
  - intros app Happ Ha Hsafe Hd Hdevice state'.
    assert (p ∉ enabledDevicePlugins state') as Hdevice'.
    { unfold state', dispatch, setPluginDisabled.
      by rewrite setPluginDisabled_safe. }
    rewrite isPluginEnabled_app, Ha by done.
    unfold state', dispatch, setPluginDisabled.
    rewrite setPluginDisabled_safe by done. simpl.
    rewrite ensure_entry_lookup. simpl.
    destruct (indexOf p _) as [idx|] eqn:Hindex.
    + erewrite get_member_own by apply lookup_insert_eq.
      do 2 f_equal. apply bool_decide_eq_false.
      destruct (enabledPlugins state !! a) as [plugins|] eqn:Hentry;
        simpl in *; [|done].
      apply indexOf_Some in Hindex as [Hidx _].
      pose proof (Hd _ _ Hentry) as Hnodup.
      intros Hin. apply list_elem_of_lookup in Hin as [j Hj].
      rewrite list_lookup_delete in Hj.
      assert (idx = if decide (j < idx)%nat then j else S j) as Hsame
        by (eapply NoDup_lookup; [done..|]; by destruct (decide (j < idx)%nat)).
      destruct (decide (j < idx)%nat); lia.
    + erewrite get_member_own by apply ensure_entry_lookup.
      do 2 f_equal. apply bool_decide_eq_false.
      by apply indexOf_None.
Qed.

(** Layout is disabled for the app of [Sample.mail]. *)
Lemma is_plugin_enabled_witness :
  isPluginEnabled sample_deconstructClientId
    (Some (enabledPlugins
             (dispatch Sample.online Sample.with_plugins
                (setPluginDisabled "Layout" "Mail"))))
    (Some (enabledDevicePlugins
             (dispatch Sample.online Sample.with_plugins
                (setPluginDisabled "Layout" "Mail"))))
    (Some (Client.id Sample.mail)) "Layout"
  = inr (Some false).
Proof.
  apply (proj2 (proj2 (is_plugin_enabled_follows_the_reducer
                         sample_deconstructClientId Sample.online
                         Sample.with_plugins "Layout" "Mail"))
           (Client.id Sample.mail));
    [discriminate|reflexivity|by intros [=]| |].
  - intros app plugins. simpl.
    destruct (decide (app = "Mail")) as [->|Hother].
    + rewrite lookup_singleton_eq. intros [= <-]. apply NoDup_cons. split.
      * by intros [[=]|[]%elem_of_nil]%elem_of_cons.
      * apply NoDup_singleton.
    + by rewrite lookup_singleton_ne.
  - simpl. intros Hin.
    repeat (apply elem_of_union in Hin as [Hin|Hin]);
      apply elem_of_singleton in Hin; discriminate Hin.
Defined.

(** X22.  [isPluginEnabled] at its edges: without an app (null or the
    empty string) or without [enabledPlugins], only device plugins are
    enabled; without [enabledDevicePlugins], none is taken for a device
    plugin and the entry of the app decides; for an app that has no entry
    the answer for a plugin that is no device plugin is [undefined] rather
    than [false], unless the app is named like a member of
    [Object.prototype]: then the call throws a [TypeError]. *)
Theorem is_plugin_enabled_without_app_or_entry
    (deconstructClientId : string → ClientQuery.t)
    (enabled : gmap string (list string)) (devicePlugins : gset string)
    (p : string) :
  (∀ enabled' app,
     app = None ∨ app = Some "" ∨ enabled' = None →
     isPluginEnabled deconstructClientId enabled' (Some devicePlugins) app p
     = inr (Some (bool_decide (p ∈ devicePlugins))))
  ∧ (∀ app,
       isPluginEnabled deconstructClientId None None app p = inr (Some false))
  ∧ (∀ app plugins,
       app ≠ "" →
       enabled !! ClientQuery.app (deconstructClientId app) = Some plugins →
       isPluginEnabled deconstructClientId (Some enabled) None (Some app) p
       = inr (Some (bool_decide (p ∈ plugins))))
  ∧ (∀ app,
       app ≠ "" → p ∉ devicePlugins →
       enabled !! ClientQuery.app (deconstructClientId app) = None →
       ClientQuery.app (deconstructClientId app) ∉ Object_prototype →
       isPluginEnabled deconstructClientId (Some enabled) (Some devicePlugins)
         (Some app) p = inr None)
  ∧ (∀ app,
       app ≠ "" → p ∉ devicePlugins →
       enabled !! ClientQuery.app (deconstructClientId app) = None →
       ClientQuery.app (deconstructClientId app) ∈ Object_prototype →
       isPluginEnabled deconstructClientId (Some enabled) (Some devicePlugins)
         (Some app) p
       = inl "enabledAppPlugins.indexOf is not a function").
Proof.
  split_and!.
  - intros enabled' app Hnone. unfold isPluginEnabled.
    case_bool_decide; [done|].
    destruct Hnone as [-> | [-> | ->]]; [done| |by destruct app].
    by destruct enabled'.
  - intros app. unfold isPluginEnabled. by destruct app.
  - intros app plugins Happ Hentry.
    rewrite isPluginEnabled_app by done.
    by rewrite (get_member_own _ _ _ Hentry).
  - intros app Happ Hp Hentry Hkey. rewrite isPluginEnabled_app by done.
    by rewrite get_member_missing.
  - intros app Happ Hp Hentry Hkey. rewrite isPluginEnabled_app by done.
    by rewrite (proj2 (get_member_inherited _ _) (conj Hentry Hkey)).
Qed.

(** *** [getAvailableClients] and [getClientByAppName] *)

(** X23.  [getAvailableClients] returns nothing for a null device.  For a
    device it returns, in the order of the sort, exactly the clients whose
    query names the device's serial with an OS the device supports, and the
    clients whose query has the device id 'unknown'; each client as often
    as [clients] holds it.  All that is asked of the sort is that it
    permutes. *)
Theorem available_clients_are_those_of_the_device
    (supportsOS : BaseDevice.t → string → bool)
    (sort : (Client.t → Client.t → Z) → list Client.t → list Client.t)
    (localeCompare : string → string → Z) :
  (∀ compare l, sort compare l ≡ₚ l) →
  (∀ clients,
     getAvailableClients supportsOS sort localeCompare None clients = [])
  ∧ (∀ device clients c,
       c ∈ getAvailableClients supportsOS sort localeCompare (Some device)
             clients
       ↔ c ∈ clients
         ∧ ((supportsOS device (ClientQuery.os (Client.query c)) = true
             ∧ ClientQuery.device_id (Client.query c)
               = BaseDevice.serial device)
            ∨ ClientQuery.device_id (Client.query c) = "unknown"))
  ∧ (∀ device clients,
       (length (getAvailableClients supportsOS sort localeCompare device
                  clients)
        ≤ length clients)%nat)
  ∧ (∀ device clients,
       NoDup clients →
       NoDup (getAvailableClients supportsOS sort localeCompare device
                clients)).
Proof.
  intros Hsort. unfold getAvailableClients. split_and!.
  - done.
  - intros device clients c. rewrite Hsort, list_elem_of_filter. tauto.
  - intros [device|] clients; [|simpl; lia].
    rewrite Hsort. apply length_filter.
  - intros [device|] clients Hnodup; [|apply NoDup_nil_2].
    rewrite Hsort. by apply NoDup_filter.
Qed.

Lemma sample_sort_Permutation compare l : sample_sort compare l ≡ₚ l.
Proof. apply merge_sort_Permutation. Qed.

(** The clients of the pixel, sorted by app name. *)
Lemma available_clients_witness :
  getAvailableClients sample_supportsOS sample_sort sample_localeCompare
    (Some Sample.pixel) [Sample.notes; Sample.maps; Sample.mail]
  = [Sample.mail; Sample.maps]
  ∧ (Sample.notes
     ∈ getAvailableClients sample_supportsOS sample_sort sample_localeCompare
         (Some Sample.pixel) [Sample.notes; Sample.maps; Sample.mail]
     → False).
Proof.
  split; [reflexivity|].
  intros Hin.
  destruct (proj1 (proj1 (proj2 (available_clients_are_those_of_the_device
                                   sample_supportsOS sample_sort
                                   sample_localeCompare
                                   sample_sort_Permutation))
                     Sample.pixel [Sample.notes; Sample.maps; Sample.mail]
                     Sample.notes) Hin)
    as [_ [[_ Hserial]|Hunknown]]; discriminate.
Defined.

(** X24.  After [NEW_CLIENT], [getClientByAppName] finds a client under
    the new client's app name: the first client of the prior [clients] with
    that app name and another id if there is one, else the new client.  A
    null app name finds nothing. *)
Theorem new_client_is_found_by_app_name
    (world : World) (state : State) (payload : Client.t) :
  getClientByAppName (clients (dispatch world state (NEW_CLIENT payload)))
    (Some (ClientQuery.app (Client.query payload)))
  = match find (λ c, ClientQuery.app (Client.query c)
                     = ClientQuery.app (Client.query payload)
                     ∧ Client.id c ≠ Client.id payload) (clients state) with
    | Some earlier => Some earlier
    | None => Some payload
    end
  ∧ getClientByAppName (clients (dispatch world state (NEW_CLIENT payload)))
      None = None.
Proof.
  unfold dispatch, getClientByAppName. simpl. split.
  - rewrite find_app, find_cons, decide_True by done.
    assert (find (λ client, Some (ClientQuery.app (Client.query client))
                            = Some (ClientQuery.app (Client.query payload)))
              (filter (λ client, Client.id client ≠ Client.id payload)
                 (clients state))
            = find (λ c, ClientQuery.app (Client.query c)
                         = ClientQuery.app (Client.query payload)
                         ∧ Client.id c ≠ Client.id payload) (clients state))
      as ->; [|done].
    induction (clients state) as [|c l IH]; [done|].
    rewrite filter_cons, (find_cons _ c l).
    destruct (decide (Client.id c ≠ Client.id payload)) as [Hid|Hid].
    + rewrite find_cons.
      destruct (decide (Some (ClientQuery.app (Client.query c)) = _))
        as [Happ|Happ].
      * rewrite decide_True; [done|]. split; congruence.
      * rewrite decide_False; [apply IH|]. intros [Happ' _]. congruence.
    + rewrite decide_False by tauto. apply IH.
  - apply find_None. by intros c _ [=].
Qed.

(** *** Registration and the metro device; the preferred device *)

(** X25.  Registering a device under a serial that no device has does not
    replace the metro device: a metro device found before is the one found
    after, and when none was found before, the new device is found after
    exactly if its os is 'Metro' and it is not archived. *)
Theorem registering_keeps_the_metro_device
    (world : World) (state : State) (payload : BaseDevice.t) :
  (∀ d, d ∈ devices state →
        BaseDevice.serial d ≠ BaseDevice.serial payload) →
  (∀ metro,
     getMetroDevice state = Some metro →
     getMetroDevice (dispatch world state (REGISTER_DEVICE payload))
     = Some metro)
  ∧ (getMetroDevice state = None →
     getMetroDevice (dispatch world state (REGISTER_DEVICE payload))
     = if bool_decide (BaseDevice.os payload = "Metro"
                       ∧ BaseDevice.isArchived payload = false)
       then Some payload else None).
Proof.
  intros Hnew. apply registerDevice_no_existing in Hnew.
  unfold dispatch, getMetroDevice, createSelector1, getDevices. simpl.
  unfold registerDevice_newDevices. rewrite Hnew. simpl.
  rewrite find_app, find_cons. split.
  - by intros metro ->.
  - intros ->. by case_bool_decide; [rewrite decide_True|rewrite decide_False].
Qed.

(** The bridge registers first, the archived import and the iphone after. *)
Lemma registering_keeps_the_metro_device_witness :
  getMetroDevice
    (dispatch Sample.online
       (dispatch Sample.online Sample.busy (REGISTER_DEVICE Sample.metro))
       (REGISTER_DEVICE Sample.archived_metro))
  = Some Sample.metro.
Proof.
  assert (∀ d,
            d ∈ devices (dispatch Sample.online Sample.busy
                           (REGISTER_DEVICE Sample.metro)) →
            BaseDevice.serial d ≠ BaseDevice.serial Sample.archived_metro)
    as Hnew.
  { intros d
      [->|[->|[->|[]%elem_of_nil]%elem_of_cons]%elem_of_cons]%elem_of_cons;
      discriminate. }
  apply (proj1 (registering_keeps_the_metro_device
                  Sample.online
                  (dispatch Sample.online Sample.busy
                     (REGISTER_DEVICE Sample.metro))
                  Sample.archived_metro Hnew)).
  reflexivity.
Defined.

(** X26.  A [SELECT_PLUGIN] that comes with a device never makes the title
    of a MacOS, Metro or Windows device the preferred device: it leaves
    [userPreferredDevice] as it is for those, and sets it to the device's
    title for a device of any other os. *)
Theorem select_plugin_prefers_no_desktop_or_metro_device
    (world : World) (state : State) (payload : Payload.t)
    (device : BaseDevice.t) :
  Payload.selectedDevice payload = present device →
  (BaseDevice.os device = "MacOS" ∨ BaseDevice.os device = "Metro"
   ∨ BaseDevice.os device = "Windows" →
   userPreferredDevice (dispatch world state (SELECT_PLUGIN payload))
   = userPreferredDevice state)
  ∧ (BaseDevice.os device ≠ "MacOS" → BaseDevice.os device ≠ "Metro" →
     BaseDevice.os device ≠ "Windows" →
     userPreferredDevice (dispatch world state (SELECT_PLUGIN payload))
     = Some (BaseDevice.title device)).
Proof.
  intros Hdevice. unfold dispatch. simpl.
  unfold selectPlugin_device. rewrite Hdevice. simpl.
  unfold canBeDefaultDevice, includes, DEFAULT_DEVICE_BLACKLIST. split.
  - intros Hos. rewrite bool_decide_eq_true_2; [done|].
    rewrite !elem_of_cons. tauto.
  - intros Hmac Hmetro Hwindows. rewrite bool_decide_eq_false_2; [done|].
    rewrite !elem_of_cons, elem_of_nil. tauto.
Qed.

(** A plugin of the metro bridge, then one of the iphone. *)
Lemma select_plugin_preference_witness :
  userPreferredDevice
    (dispatch Sample.online Sample.busy
       (SELECT_PLUGIN
          (Payload.mk "Hermesdebuggerrn" undefined js_undefined
             (present Sample.metro) 0)))
  = None
  ∧ userPreferredDevice
      (dispatch Sample.online Sample.busy
         (SELECT_PLUGIN
            (Payload.mk "DeviceLogs" undefined js_undefined
               (present Sample.iphone) 0)))
    = Some "iPhone".
Proof.
  split.
  - apply (proj1 (select_plugin_prefers_no_desktop_or_metro_device
                    Sample.online Sample.busy
                    (Payload.mk "Hermesdebuggerrn" undefined js_undefined
                       (present Sample.metro) 0)
                    Sample.metro eq_refl)).
    right. left. reflexivity.
  - apply (proj2 (select_plugin_prefers_no_desktop_or_metro_device
                    Sample.online Sample.busy
                    (Payload.mk "DeviceLogs" undefined js_undefined
                       (present Sample.iphone) 0)
                    Sample.iphone eq_refl)); discriminate.
Defined.
